(** * FTDtoCSV: the four line recognizers of [script.py]

    A shallow embedding of [parse_interfaces], [parse_routes],
    [parse_object_nat], [parse_acl_line] and [parse_acls], together with the
    Python string operations they are built from.

    Conventions.
    - A Python [str] is a [string]; a character is a code point below 256,
      and [isspace] is Python's [str.isspace] on that range (the same class
      that [str.strip], [str.split] and the regex escape [\s] use).
    - A Python list is a [list]; [l[i]] is a fallible lookup that raises
      [IndexError] out of range.
    - A dict with a fixed key set is a record; the interface dict, which
      starts out empty, is a [gmap string string].
    - Exceptions are values of [result]; a [try]/[except] block is a state
      transformer whose partial updates survive the fault. *)

From Stdlib Require Import Ascii String.
From stdpp Require Import base option list strings gmap.

Local Open Scope string_scope.
Local Open Scope list_scope.

(** ** Python string primitives *)

Module Py.

(** [str.isspace] on one character: U+0009..U+000D, U+001C..U+0020, U+0085
    and U+00A0. *)
Definition isspace (c : ascii) : bool :=
  match c with
  | "009" | "010" | "011" | "012" | "013"
  | "028" | "029" | "030" | "031" | " "
  | "133" | "160" => true
  | _ => false
  end%char.

(** Regex class [\S]. *)
Definition nonspace (c : ascii) : bool := negb (isspace c).

(** Regex class [\d] (decimal digits; on this range only 0..9). *)
Definition isdigit (c : ascii) : bool :=
  match c with
  | "0" | "1" | "2" | "3" | "4" | "5" | "6" | "7" | "8" | "9" => true
  | _ => false
  end%char.

Fixpoint all_space (s : string) : bool :=
  match s with
  | "" => true
  | String c s' => isspace c && all_space s'
  end.

Fixpoint lstrip (s : string) : string :=
  match s with
  | "" => ""
  | String c s' => if isspace c then lstrip s' else s
  end.

Fixpoint rstrip (s : string) : string :=
  match s with
  | "" => ""
  | String c s' =>
      match rstrip s' with
      | "" => if isspace c then "" else String c ""
      | r => String c r
      end
  end.

(** [s.strip()] *)
Definition strip (s : string) : string := rstrip (lstrip s).

(** [s.startswith(p)] *)
Fixpoint startswith (p s : string) : bool :=
  match p, s with
  | "", _ => true
  | String a p', String b s' => if Ascii.eqb a b then startswith p' s' else false
  | String _ _, "" => false
  end.

(** [p in s] for strings: [p] occurs as a substring of [s]. *)
Fixpoint contains (p s : string) : bool :=
  startswith p s ||
  match s with
  | "" => false
  | String _ s' => contains p s'
  end.

(** [s.split()]: the maximal runs of non-whitespace characters, in order.
    [cur] is the run being read. *)
Definition flush (cur : string) : list string :=
  match cur with "" => [] | _ => [cur] end.

Fixpoint split_go (cur : string) (s : string) : list string :=
  match s with
  | "" => flush cur
  | String c s' =>
      if isspace c then flush cur ++ split_go "" s'
      else split_go (cur +:+ String c "") s'
  end.

Definition split (s : string) : list string := split_go "" s.

(** [s.split(sep)] for a non-empty separator: the pieces between the
    non-overlapping occurrences of [sep], scanned left to right. After an
    occurrence is found at the current position, [skip] counts the
    characters of it that are still to be passed over. *)
Fixpoint split_sep_go (sep cur : string) (skip : nat) (s : string) : list string :=
  match s with
  | "" => [cur]
  | String c s' =>
      match skip with
      | S k => split_sep_go sep cur k s'
      | O =>
          if startswith sep s
          then cur :: split_sep_go sep "" (String.length sep - 1) s'
          else split_sep_go sep (cur +:+ String c "") 0 s'
      end
  end.

Definition split_sep (sep s : string) : list string := split_sep_go sep "" 0 s.

End Py.

(** ** Exceptions *)

Inductive exn : Type := IndexError.

(** [str(e)] *)
Definition exn_message (e : exn) : string :=
  match e with IndexError => "list index out of range" end.

Inductive result (A : Type) : Type :=
  | Ok (a : A)
  | Raise (e : exn).
Arguments Ok {A} a.
Arguments Raise {A} e.

Definition rbind {A B} (m : result A) (f : A -> result B) : result B :=
  match m with Ok a => f a | Raise e => Raise e end.

Declare Scope result_scope.
Delimit Scope result_scope with result.
Notation "x <-! m ; k" := (rbind m (fun x => k))
  (at level 100, m at next level, right associativity) : result_scope.

(** [l[i]] for [i >= 0] *)
Definition index (l : list string) (i : nat) : result string :=
  match l !! i with Some x => Ok x | None => Raise IndexError end.

(** [l[-1]] *)
Definition index_last (l : list string) : result string :=
  match last l with Some x => Ok x | None => Raise IndexError end.

(** ** Regular expressions

    The two patterns of the script are written with backtracking matchers
    in continuation-passing style: a matcher consumes a prefix of the input
    and hands the rest to its continuation; a greedy repetition tries the
    longest run first and gives characters back while the continuation
    fails, as Python's [re] does. *)

Module Re.

Section Matchers.
Context {A : Type}.

(** A literal piece of the pattern. *)
Fixpoint lit (p : string) (k : string -> option A) (s : string) : option A :=
  match p, s with
  | "", _ => k s
  | String a p', String b s' => if Ascii.eqb a b then lit p' k s' else None
  | String _ _, "" => None
  end.

(** Zero or more characters of class [C], greedily, after [acc] has been
    captured already. *)
Fixpoint star (C : ascii -> bool) (k : string -> string -> option A)
    (acc s : string) : option A :=
  match s with
  | String c s' =>
      if C c then
        match star C k (acc +:+ String c "") s' with
        | Some r => Some r
        | None => k acc s
        end
      else k acc s
  | "" => k acc s
  end.

(** One or more characters of class [C], greedily: the continuation
    receives the captured group and the rest of the input. *)
Definition plus (C : ascii -> bool) (k : string -> string -> option A)
    (s : string) : option A :=
  match s with
  | String c s' => if C c then star C k (String c "") s' else None
  | "" => None
  end.
End Matchers.

End Re.

(** ** Route parser *)

Record RouteRecord : Type := mkRoute {
  r_interface : string;
  r_destination : string;
  r_netmask : string;
  r_gateway : string;
  r_metric : string
}.

(** The pattern [route_pattern]: the literal [route] and a space, four
    groups of one or more non-whitespace characters separated by single
    spaces, then optionally a space and a group of one or more digits;
    applied with [match], so anchored at the start only. Returns groups
    1..4, and group 5 when the optional part took part in the match. *)
Definition route_pattern (s : string)
    : option (string * string * string * string * option string) :=
  Re.lit "route " (Re.plus Py.nonspace (fun g1 =>
  Re.lit " " (Re.plus Py.nonspace (fun g2 =>
  Re.lit " " (Re.plus Py.nonspace (fun g3 =>
  Re.lit " " (Re.plus Py.nonspace (fun g4 rest =>
    match Re.lit " " (Re.plus Py.isdigit (fun g5 _ => Some g5)) rest with
    | Some g5 => Some (g1, g2, g3, g4, Some g5)
    | None => Some (g1, g2, g3, g4, None)
    end)))))))) s.

Definition route_step (route_entries : list RouteRecord) (line : string)
    : list RouteRecord :=
  match route_pattern (Py.strip line) with
  | Some (g1, g2, g3, g4, g5) =>
      route_entries ++
        [ {| r_interface := g1; r_destination := g2; r_netmask := g3;
             r_gateway := g4;
             r_metric := match g5 with Some m => m | None => "" end |} ]
  | None => route_entries
  end.

Definition parse_routes (config_lines : list string) : list RouteRecord :=
  foldl route_step [] config_lines.


(** A [for] loop over the lines whose body may raise. *)
Fixpoint for_each {S : Type} (body : S -> string -> result S) (st : S)
    (lines : list string) : result S :=
  match lines with
  | [] => Ok st
  | line :: rest =>
      match body st line with
      | Ok st' => for_each body st' rest
      | Raise e => Raise e
      end
  end.

(** ** Interface parser *)

(** Truth value of a dict: it is not empty. *)
Definition dict_truthy (d : gmap string string) : bool := bool_decide (d ≠ ∅).

Definition new_interface (name : string) : gmap string string :=
  <["VLAN" := ""]> (<["Standby IP" := ""]> (<["Subnet Mask" := ""]>
  (<["IP Address" := ""]> (<["Security Level" := ""]> (<["Name" := ""]>
  (<["Interface" := name]> ∅)))))).

(** One iteration of the loop of [parse_interfaces] on the state
    [(interfaces, current)]. *)
Definition interface_step (st : list (gmap string string) * gmap string string)
    (line0 : string) : result (list (gmap string string) * gmap string string) :=
  let '(interfaces, current) := st in
  let line := Py.strip line0 in
  if Py.startswith "interface " line then
    let interfaces' :=
      if dict_truthy current then interfaces ++ [current] else interfaces in
    (name <-! index (Py.split line) 1;
     Ok (interfaces', new_interface name))%result
  else if Py.startswith "nameif" line then
    (v <-! index (Py.split line) 1;
     Ok (interfaces, <["Name" := v]> current))%result
  else if Py.startswith "security-level" line then
    (v <-! index (Py.split line) 1;
     Ok (interfaces, <["Security Level" := v]> current))%result
  else if Py.startswith "ip address" line then
    let parts := Py.split line in
    (ip <-! index parts 2;
     mask <-! index parts 3;
     let current' := <["Subnet Mask" := mask]> (<["IP Address" := ip]> current) in
     if Py.contains "standby" line then
       (sb <-! index_last parts;
        Ok (interfaces, <["Standby IP" := sb]> current'))
     else Ok (interfaces, current'))%result
  else if Py.startswith "vlan" line then
    (v <-! index (Py.split line) 1;
     Ok (interfaces, <["VLAN" := v]> current))%result
  else if (line =? "!") && dict_truthy current then
    Ok (interfaces ++ [current], ∅)
  else Ok st.

Definition parse_interfaces (config_lines : list string)
    : result (list (gmap string string)) :=
  (st <-! for_each interface_step ([], ∅) config_lines;
   let '(interfaces, current) := st in
   Ok (if dict_truthy current then interfaces ++ [current] else interfaces))%result.

(** ** Object NAT parser *)

Record NatRecord : Type := mkNat {
  object_name : string;
  source_interface : string;
  destination_interface : string;
  nat_type : string;
  translated_object : string;
  nat_raw : string
}.

(** The pattern of [parse_object_nat]: the literal [nat] and an opening
    parenthesis, a group of non-whitespace characters, a comma, a second
    group, a closing parenthesis and the word [static] between single
    spaces, and a third group; applied with [match]. *)
Definition nat_pattern (s : string) : option (string * string * string) :=
  Re.lit "nat (" (Re.plus Py.nonspace (fun g1 =>
  Re.lit "," (Re.plus Py.nonspace (fun g2 =>
  Re.lit ") static " (Re.plus Py.nonspace (fun g3 _ =>
    Some (g1, g2, g3))))))) s.

(** Truth value of [current_object]: neither [None] nor the empty string. *)
Definition object_truthy (o : option string) : bool :=
  match o with
  | Some name => negb (name =? "")
  | None => false
  end.

(** One iteration of the loop of [parse_object_nat] on the state
    [(nat_entries, current_object)]. *)
Definition nat_step (st : list NatRecord * option string) (line0 : string)
    : result (list NatRecord * option string) :=
  let '(nat_entries, current_object) := st in
  let line := Py.strip line0 in
  if Py.startswith "object network" line then
    (piece <-! index (Py.split_sep "object network" line) 1;
     Ok (nat_entries, Some (Py.strip piece)))%result
  else if Py.startswith "nat (" line && object_truthy current_object then
    let nat_entries' :=
      match nat_pattern line with
      | Some (g1, g2, g3) =>
          nat_entries ++
            [ {| object_name := default "" current_object;
                 source_interface := g1;
                 destination_interface := g2;
                 nat_type := "static";
                 translated_object := g3;
                 nat_raw := line |} ]
      | None => nat_entries
      end in
    Ok (nat_entries', None)
  else Ok st.

Definition parse_object_nat (config_lines : list string)
    : result (list NatRecord) :=
  (st <-! for_each nat_step ([], None) config_lines;
   Ok (fst st))%result.

(** ** ACL parser *)

Record AclRecord : Type := mkAcl {
  acl_name : string;
  action : string;
  protocol : string;
  source_zone : string;
  source_type : string;
  source_value : string;
  source_port : string;
  destination_zone : string;
  destination_type : string;
  destination_value : string;
  destination_port : string;
  rule_id : string;
  raw : string
}.

(** The dict [result] as [parse_acl_line] creates it. *)
Definition acl_init (stripped : string) : AclRecord :=
  mkAcl "" "" "" "" "" "" "" "" "" "" "" "" stripped.

(** The keys the [try] block assigns to. *)
Inductive acl_key : Type :=
  | K_acl_name | K_action | K_protocol
  | K_source_zone | K_source_type | K_source_value | K_source_port
  | K_destination_zone | K_destination_type | K_destination_value
  | K_destination_port | K_rule_id.

(** [result[k] = v] *)
Definition acl_set (k : acl_key) (v : string) (r : AclRecord) : AclRecord :=
  let '(mkAcl n a p sz st sv sp dz dt dv dp ri rw) := r in
  match k with
  | K_acl_name => mkAcl v a p sz st sv sp dz dt dv dp ri rw
  | K_action => mkAcl n v p sz st sv sp dz dt dv dp ri rw
  | K_protocol => mkAcl n a v sz st sv sp dz dt dv dp ri rw
  | K_source_zone => mkAcl n a p v st sv sp dz dt dv dp ri rw
  | K_source_type => mkAcl n a p sz v sv sp dz dt dv dp ri rw
  | K_source_value => mkAcl n a p sz st v sp dz dt dv dp ri rw
  | K_source_port => mkAcl n a p sz st sv v dz dt dv dp ri rw
  | K_destination_zone => mkAcl n a p sz st sv sp v dt dv dp ri rw
  | K_destination_type => mkAcl n a p sz st sv sp dz v dv dp ri rw
  | K_destination_value => mkAcl n a p sz st sv sp dz dt v dp ri rw
  | K_destination_port => mkAcl n a p sz st sv sp dz dt dv v ri rw
  | K_rule_id => mkAcl n a p sz st sv sp dz dt dv dp v rw
  end.

(** [result["raw"] += suffix] *)
Definition acl_append_raw (suffix : string) (r : AclRecord) : AclRecord :=
  let '(mkAcl n a p sz st sv sp dz dt dv dp ri rw) := r in
  mkAcl n a p sz st sv sp dz dt dv dp ri (rw +:+ suffix).

(** Statements of the [try] block: they update the dict and may raise; the
    updates made before a fault stay. *)
Definition Acl (A : Type) : Type := AclRecord -> AclRecord * result A.

Definition aret {A} (a : A) : Acl A := fun r => (r, Ok a).

Definition abind {A B} (m : Acl A) (f : A -> Acl B) : Acl B :=
  fun r =>
    match m r with
    | (r', Ok a) => f a r'
    | (r', Raise e) => (r', Raise e)
    end.

Declare Scope acl_scope.
Delimit Scope acl_scope with acl.
Notation "x <- m ;; k" := (abind m (fun x => k))
  (at level 100, m at next level, right associativity) : acl_scope.
Notation "m ;; k" := (abind m (fun _ => k))
  (at level 100, right associativity) : acl_scope.

(** [tokens[i]] inside the [try] block. *)
Definition tok (tokens : list string) (i : nat) : Acl string :=
  fun r => (r, index tokens i).

(** [result[k] = v] inside the [try] block. *)
Definition assign (k : acl_key) (v : string) : Acl unit :=
  fun r => (acl_set k v r, Ok tt).

(** [t in l] for a list of strings. *)
Definition mem (t : string) (l : list string) : bool := bool_decide (t ∈ l).

(** [tokens.index(t)] when [t] occurs in [tokens]. *)
Fixpoint index_of (t : string) (tokens : list string) : nat :=
  match tokens with
  | [] => 0
  | x :: rest => if x =? t then 0 else S (index_of t rest)
  end.

Definition endpoint_kinds : list string := ["object"; "object-group"; "host"].
Definition port_ops : list string := ["eq"; "range"; "gt"; "lt"; "neq"].

(** The two port clauses: [if idx < len(tokens) and tokens[idx] in [...]].
    Returns the new [idx]. *)
Definition port_clause (tokens : list string) (key : acl_key) (idx : nat)
    : Acl nat :=
  (if bool_decide (idx < length tokens) then
     t <- tok tokens idx ;;
     if mem t port_ops then
       t' <- tok tokens idx ;;
       if t' =? "range" then
         lo <- tok tokens (idx + 1) ;;
         hi <- tok tokens (idx + 2) ;;
         assign key (lo +:+ "-" +:+ hi) ;;
         aret (idx + 3)
       else
         v <- tok tokens (idx + 1) ;;
         assign key v ;;
         aret (idx + 2)
     else aret idx
   else aret idx)%acl.

(** The [try] block of [parse_acl_line] from [idx = 5] on: the cursor walk
    over the optional clauses and the scan for [rule-id]. *)
Definition acl_clauses (tokens : list string) : Acl unit :=
  (let idx := 5 in
   t <- tok tokens idx ;;
   idx <- (if t =? "ifc" then
             z <- tok tokens (idx + 1) ;;
             assign K_source_zone z ;;
             aret (idx + 2)
           else aret idx) ;;
   t <- tok tokens idx ;;
   idx <- (if mem t endpoint_kinds then
             ty <- tok tokens idx ;;
             assign K_source_type ty ;;
             v <- tok tokens (idx + 1) ;;
             assign K_source_value v ;;
             aret (idx + 2)
           else
             assign K_source_type "any" ;;
             v <- tok tokens idx ;;
             assign K_source_value v ;;
             aret (idx + 1)) ;;
   idx <- port_clause tokens K_source_port idx ;;
   idx <- (if bool_decide (idx < length tokens) then
             t <- tok tokens idx ;;
             if t =? "ifc" then
               z <- tok tokens (idx + 1) ;;
               assign K_destination_zone z ;;
               aret (idx + 2)
             else aret idx
           else aret idx) ;;
   idx <- (if bool_decide (idx < length tokens) then
             t <- tok tokens idx ;;
             if mem t endpoint_kinds then
               ty <- tok tokens idx ;;
               assign K_destination_type ty ;;
               v <- tok tokens (idx + 1) ;;
               assign K_destination_value v ;;
               aret (idx + 2)
             else
               assign K_destination_type "any" ;;
               v <- tok tokens idx ;;
               assign K_destination_value v ;;
               aret (idx + 1)
           else aret idx) ;;
   idx <- port_clause tokens K_destination_port idx ;;
   if mem "rule-id" tokens then
     let rule_idx := index_of "rule-id" tokens in
     v <- tok tokens (rule_idx + 1) ;;
     assign K_rule_id v
   else aret tt)%acl.

(** The body of the [try] block of [parse_acl_line]: the three positional
    fields, then the clauses. *)
Definition acl_body (tokens : list string) : Acl unit :=
  (t1 <- tok tokens 1 ;; assign K_acl_name t1 ;;
   t3 <- tok tokens 3 ;; assign K_action t3 ;;
   t4 <- tok tokens 4 ;; assign K_protocol t4 ;;
   acl_clauses tokens)%acl.

(** The [except Exception as e] handler. *)
Definition parse_error_suffix (e : exn) : string :=
  "  # Parse error: " +:+ exn_message e.

(** [try: body  except Exception as e: result["raw"] += ...], returning the
    dict afterwards. *)
Definition try_except (body : Acl unit) (r : AclRecord) : AclRecord :=
  match body r with
  | (r', Ok _) => r'
  | (r', Raise e) => acl_append_raw (parse_error_suffix e) r'
  end.

(** [parse_acl_line]: [None] is Python's [None]. *)
Definition parse_acl_line (line : string) : result (option AclRecord) :=
  let result0 := acl_init (Py.strip line) in
  let tokens := Py.split (Py.strip line) in
  if bool_decide (tokens = []) then Ok None
  else
    (t0 <-! index tokens 0;
     if negb (t0 =? "access-list") then Ok None
     else Ok (Some (try_except (acl_body tokens) result0)))%result.

(** One iteration of the loop of [parse_acls]; the dict it gets back has
    thirteen keys and is therefore true whenever it is not [None]. *)
Definition acls_step (parsed : list AclRecord) (line : string)
    : result (list AclRecord) :=
  if Py.startswith "access-list" line && Py.contains "advanced" line then
    (acl <-! parse_acl_line line;
     match acl with
     | Some r => Ok (parsed ++ [r])
     | None => Ok parsed
     end)%result
  else Ok parsed.

Definition parse_acls (config_lines : list string) : result (list AclRecord) :=
  for_each acls_step [] config_lines.

(** ** Kinds of lines of the interface parser *)

(** The first branch of the loop of [parse_interfaces] is taken. *)
Definition is_header (line0 : string) : bool :=
  Py.startswith "interface " (Py.strip line0).

(** The stripped line is the bare terminator. *)
Definition is_terminator (line0 : string) : bool := Py.strip line0 =? "!".

(** The line takes one of the four field branches and has fewer tokens
    than the branch indexes: fewer than two after [nameif],
    [security-level] or [vlan], fewer than four after [ip address]. *)
Definition short_field_line (line0 : string) : bool :=
  let line := Py.strip line0 in
  if Py.startswith "interface " line then false
  else if Py.startswith "nameif" line then
    bool_decide (length (Py.split line) < 2)
  else if Py.startswith "security-level" line then
    bool_decide (length (Py.split line) < 2)
  else if Py.startswith "ip address" line then
    bool_decide (length (Py.split line) < 4)
  else if Py.startswith "vlan" line then
    bool_decide (length (Py.split line) < 2)
  else false.

(** A line inside a block: not a declaration, not the terminator, and not
    a short field line. *)
Definition is_body (line0 : string) : bool :=
  negb (is_header line0) && negb (is_terminator line0) &&
  negb (short_field_line line0).

(** A block is a declaration line and the lines inside it. *)
Definition valid_block (b : string * list string) : bool :=
  is_header b.1 && forallb is_body b.2.

(** The lines of a block closed by the terminator line [t]. *)
Definition closed_block (bt : string * list string * string) : list string :=
  bt.1.1 :: bt.1.2 ++ [bt.2].

(** The lines of a final block, which may lack its terminator. *)
Definition open_block (b : option (string * list string)) : list string :=
  match b with
  | Some (h, body) => h :: body
  | None => []
  end.

Definition count_terminators (lines : list string) : nat :=
  length (filter (fun l => is_terminator l = true) lines).

(** ** Kinds of lines of the object NAT parser *)

(** The first branch of the loop of [parse_object_nat] is taken. *)
Definition is_object_decl (line0 : string) : bool :=
  Py.startswith "object network" (Py.strip line0).

(** The line carries the prefix the second branch tests for. *)
Definition is_nat_line (line0 : string) : bool :=
  Py.startswith "nat (" (Py.strip line0).

(** The value the first branch assigns to [current_object]. *)
Definition declared_name (line0 : string) : result string :=
  (piece <-! index (Py.split_sep "object network" (Py.strip line0)) 1;
   Ok (Py.strip piece))%result.

(** The entry the second branch appends for the groups of a match. *)
Definition nat_entry (name : string) (g : string * string * string)
    (line0 : string) : NatRecord :=
  {| object_name := name;
     source_interface := g.1.1;
     destination_interface := g.1.2;
     nat_type := "static";
     translated_object := g.2;
     nat_raw := Py.strip line0 |}.

(** ** Invariants of the dict of the ACL parser *)

(** [P] is an invariant of the dict across the statement [m], fault or not. *)
Definition keeps {A} (P : AclRecord -> Prop) (m : Acl A) : Prop :=
  forall r, P r -> P (m r).1.

(** The keys of the positional fields. *)
Definition required_key (k : acl_key) : bool :=
  match k with
  | K_acl_name | K_action | K_protocol => true
  | _ => false
  end.

(** The dict entries that only [acl_body]'s first three assignments and
    the handler write to. *)
Definition frame (n a p rw : string) (r : AclRecord) : Prop :=
  acl_name r = n /\ action r = a /\ protocol r = p /\ raw r = rw.

(** ** Vocabulary of the further properties *)

(** Every character of [s] is in the class [C]. *)
Fixpoint all_in (C : ascii -> bool) (s : string) : bool :=
  match s with
  | "" => true
  | String c s' => C c && all_in C s'
  end.

(** A greedy run over the class [C] cannot go on into [rest]. *)
Definition stops (C : ascii -> bool) (rest : string) : bool :=
  match rest with
  | "" => true
  | String c _ => negb (C c)
  end.

(** A token as the patterns capture it: not empty, no whitespace. *)
Definition is_word (s : string) : Prop := s <> "" /\ all_in Py.nonspace s = true.

(** The record [route_step] appends for the groups of a match. *)
Definition route_entry (g : string * string * string * string * option string)
    : RouteRecord :=
  {| r_interface := g.1.1.1.1; r_destination := g.1.1.1.2;
     r_netmask := g.1.1.2; r_gateway := g.1.2;
     r_metric := default "" g.2 |}.

(** A line the object NAT parser reacts to in no state. *)
Definition nat_neutral (line0 : string) : Prop :=
  is_object_decl line0 = false /\ is_nat_line line0 = false.

(** The record [r] pairs an object declaration of [lines] with a later
    line that matches the static pattern, with only neutral lines between
    the two. *)
Definition nat_pairing (lines : list string) (r : NatRecord) : Prop :=
  exists before obj mid natl after g,
    lines = before ++ [obj] ++ mid ++ [natl] ++ after /\
    is_object_decl obj = true /\
    declared_name obj = Ok (object_name r) /\
    object_name r <> "" /\
    Forall nat_neutral mid /\
    nat_pattern (Py.strip natl) = Some g /\
    r = nat_entry (object_name r) g natl.

(** The pending name [cur], when it counts, was declared in [done] and only
    neutral lines came after the declaration. *)
Definition nat_pending (done : list string) (cur : option string) : Prop :=
  forall name, cur = Some name -> name <> "" ->
  exists before obj mid,
    done = before ++ [obj] ++ mid /\
    is_object_decl obj = true /\
    declared_name obj = Ok name /\
    Forall nat_neutral mid.

(** The number of object declarations among the lines. *)
Definition count_object_decls (lines : list string) : nat :=
  length (filter (fun l => is_object_decl l = true) lines).

(** The seven columns of an interface record. *)
Definition interface_columns : gset string :=
  list_to_set ["Interface"; "Name"; "Security Level"; "IP Address";
               "Subnet Mask"; "Standby IP"; "VLAN"].

(** The keys the four field branches of [parse_interfaces] assign to. *)
Definition field_keys : list string :=
  ["Name"; "Security Level"; "IP Address"; "Subnet Mask"; "Standby IP"; "VLAN"].

(** The line takes one of the four field branches. *)
Definition is_field_line (line0 : string) : bool :=
  let line := Py.strip line0 in
  negb (Py.startswith "interface " line) &&
  (Py.startswith "nameif" line || Py.startswith "security-level" line ||
   Py.startswith "ip address" line || Py.startswith "vlan" line).

(** A line that has no effect while no record is in progress. *)
Definition interface_ignorable (line0 : string) : Prop :=
  is_header line0 = false /\ is_field_line line0 = false.

(** A line some branch of the loop of [parse_interfaces] can react to. *)
Definition interface_relevant (line0 : string) : bool :=
  is_header line0 || is_field_line line0 || is_terminator line0.

(** A line the first two branches of [parse_object_nat] can react to. *)
Definition nat_relevant (line0 : string) : bool :=
  is_object_decl line0 || is_nat_line line0.

(** The identifier a declaration line gives to its record. *)
Definition header_name (line0 : string) : option string :=
  Py.split (Py.strip line0) !! 1.

(** What may follow the lines of a block: nothing, or the terminator and
    then lines without effect. *)
Definition closing_ok (closing : list string) : Prop :=
  match closing with
  | [] => True
  | t :: junk => is_terminator t = true /\ Forall interface_ignorable junk
  end.

(** The lines of a block with what follows it. *)
Definition block_lines (b : string * list string * list string) : list string :=
  b.1.1 :: b.1.2 ++ b.2.

(** The record of a block: its identifier and the seven columns. *)
Definition block_record (b : string * list string * list string)
    (r : gmap string string) : Prop :=
  r !! "Interface" = header_name b.1.1 /\ dom r = interface_columns.

(** What the pass returns at the end of the input from a loop state. *)
Definition interfaces_out (st : list (gmap string string) * gmap string string)
    : list (gmap string string) :=
  if dict_truthy st.2 then st.1 ++ [st.2] else st.1.

(** The values the two endpoint type fields can take. *)
Definition acl_type_vocab : list string :=
  [""; "object"; "object-group"; "host"; "any"].

(** Both endpoint type fields are in the vocabulary. *)
Definition types_in_vocab (r : AclRecord) : Prop :=
  source_type r ∈ acl_type_vocab /\ destination_type r ∈ acl_type_vocab.

(** When the statement [m] completes from a dict with [P], the dict it
    leaves has [Q]. *)
Definition on_success {A} (P : AclRecord -> Prop) (m : Acl A)
    (Q : AclRecord -> Prop) : Prop :=
  forall r r' a, P r -> m r = (r', Ok a) -> Q r'.

(** The line passes the filter of [parse_acls] and [parse_acl_line] does
    not reject it. *)
Definition acl_qualifies (line : string) : bool :=
  Py.startswith "access-list" line && Py.contains "advanced" line &&
  bool_decide (head (Py.split (Py.strip line)) = Some "access-list").

(** A value a port field can hold for the token list: nothing, the token
    after a comparison operator, or the two tokens after [range] joined by
    a dash. *)
Definition port_ok (tokens : list string) (v : string) : Prop :=
  v = "" \/
  exists i op,
    tokens !! i = Some op /\ op ∈ port_ops /\
    ((op = "range" /\
      exists lo hi,
        tokens !! (i + 1) = Some lo /\ tokens !! (i + 2) = Some hi /\
        v = lo +:+ "-" +:+ hi) \/
     (op <> "range" /\ tokens !! (i + 1) = Some v)).

Definition ports_ok (tokens : list string) (r : AclRecord) : Prop :=
  port_ok tokens (source_port r) /\ port_ok tokens (destination_port r).

(** [result[k]] for the keys the [try] block assigns to. *)
Definition acl_get (k : acl_key) (r : AclRecord) : string :=
  match k with
  | K_acl_name => acl_name r
  | K_action => action r
  | K_protocol => protocol r
  | K_source_zone => source_zone r
  | K_source_type => source_type r
  | K_source_value => source_value r
  | K_source_port => source_port r
  | K_destination_zone => destination_zone r
  | K_destination_type => destination_type r
  | K_destination_value => destination_value r
  | K_destination_port => destination_port r
  | K_rule_id => rule_id r
  end.

(** The fields with a key of the class [K] are empty strings. *)
Definition empty_on (K : acl_key -> bool) (r : AclRecord) : Prop :=
  forall k, K k = true -> acl_get k r = "".

Definition zone_key (k : acl_key) : bool :=
  match k with K_source_zone | K_destination_zone => true | _ => false end.

Definition port_key (k : acl_key) : bool :=
  match k with K_source_port | K_destination_port => true | _ => false end.

Definition rule_key (k : acl_key) : bool :=
  match k with K_rule_id => true | _ => false end.

Definition destination_key (k : acl_key) : bool :=
  match k with
  | K_destination_zone | K_destination_type | K_destination_value
  | K_destination_port => true
  | _ => false
  end.

Definition clause_key (k : acl_key) : bool := negb (required_key k).

(** The fields of a returned record for which the line has nothing are
    empty strings: a positional field whose token is missing; every other
    field when there is no token after the protocol; the destination
    fields when there is no token after the first source token; the zones
    when no token is [ifc]; the ports when no token is a port operator;
    the rule id when no token is [rule-id]. *)
Definition absent_fields_empty (tokens : list string) (r : AclRecord) : Prop :=
  acl_name r = default "" (tokens !! 1) /\
  action r = default "" (tokens !! 3) /\
  protocol r = default "" (tokens !! 4) /\
  (length tokens <= 5 -> empty_on clause_key r) /\
  (length tokens <= 6 -> empty_on destination_key r) /\
  ("ifc" ∉ tokens -> empty_on zone_key r) /\
  ((forall op, op ∈ port_ops -> op ∉ tokens) -> empty_on port_key r) /\
  ("rule-id" ∉ tokens -> empty_on rule_key r).

(** The statement [m], which returns a cursor, keeps [P] and returns at
    least [n] when it completes. *)
Definition bounded (P : AclRecord -> Prop) (n : nat) (m : Acl nat) : Prop :=
  forall r, P r -> P (m r).1 /\ forall i, (m r).2 = Ok i -> n <= i.

(** * Properties *)

Example strip_ex : Py.strip "  ip address 10.0.0.1 255.0.0.0  " = "ip address 10.0.0.1 255.0.0.0".
Proof. reflexivity. Qed.

Example split_ex : Py.split " a  bc d " = ["a"; "bc"; "d"].
Proof. reflexivity. Qed.

Example split_sep_ex :
  Py.split_sep "object network" "object network A object network B" = [""; " A "; " B"].
Proof. reflexivity. Qed.

Example split_sep_ex2 : Py.split_sep "ab" "xabab" = ["x"; ""; ""].
Proof. reflexivity. Qed.

(** C9. The route parser maps [route outside 10.0.0.0 255.0.0.0 192.168.1.1 1]
    to the record with interface [outside], destination [10.0.0.0], netmask
    [255.0.0.0], gateway [192.168.1.1] and metric [1], and the same line
    without the trailing [1] to the same record with the empty metric. *)
Theorem parse_routes_example :
  parse_routes ["route outside 10.0.0.0 255.0.0.0 192.168.1.1 1"] =
    [ {| r_interface := "outside"; r_destination := "10.0.0.0";
         r_netmask := "255.0.0.0"; r_gateway := "192.168.1.1";
         r_metric := "1" |} ] /\
  parse_routes ["route outside 10.0.0.0 255.0.0.0 192.168.1.1"] =
    [ {| r_interface := "outside"; r_destination := "10.0.0.0";
         r_netmask := "255.0.0.0"; r_gateway := "192.168.1.1";
         r_metric := "" |} ].
Proof. split; vm_compute; reflexivity. Qed.

(** ** Facts about the string primitives *)

Lemma startswith_app (p s : string) :
  Py.startswith p s = true -> exists r, s = p +:+ r.
Proof.
  revert s. induction p as [|a p IH]; intros s H.
  - exists s. reflexivity.
  - destruct s as [|b s]; [discriminate|]. simpl in H.
    destruct (Ascii.eqb_spec a b) as [->|]; [|discriminate].
    destruct (IH _ H) as [r ->]. exists r. reflexivity.
Qed.

Lemma rstrip_empty (s : string) : Py.rstrip s = "" <-> Py.all_space s = true.
Proof.
  induction s as [|c s IH]; simpl; [tauto|].
  destruct (Py.rstrip s) eqn:E.
  - destruct (Py.isspace c); simpl; [tauto|]. split; discriminate.
  - split; [discriminate|]. intros [_ H]%andb_true_iff.
    apply IH in H. discriminate.
Qed.

(** What [rstrip] returns has no whitespace suffix. *)
Lemma rstrip_no_trailing_space (s a b : string) :
  Py.rstrip s = a +:+ b -> Py.all_space b = true -> b = "".
Proof.
  revert a b. induction s as [|c s IH]; intros a b E Hb.
  - destruct a, b; try discriminate. reflexivity.
  - simpl in E. destruct (Py.rstrip s) as [|c' r] eqn:Er.
    + destruct (Py.isspace c) eqn:Ec.
      * destruct a, b; try discriminate. reflexivity.
      * destruct a as [|x a].
        -- change ("" +:+ b) with b in E. subst b. simpl in Hb.
           rewrite Ec in Hb. discriminate.
        -- change (String x a +:+ b) with (String x (a +:+ b)) in E.
           destruct a, b; try discriminate. reflexivity.
    + destruct a as [|x a].
      * change ("" +:+ b) with b in E. subst b. simpl in Hb.
        apply andb_true_iff in Hb as [_ Hb].
        specialize (IH "" (String c' r) eq_refl Hb). discriminate.
      * change (String x a +:+ b) with (String x (a +:+ b)) in E.
        injection E as _ E. apply (IH a b); [exact E | exact Hb].
Qed.

Lemma strip_all_space (s : string) :
  Py.all_space (Py.strip s) = true -> Py.strip s = "".
Proof.
  intros H. unfold Py.strip in *.
  apply (rstrip_no_trailing_space (Py.lstrip s) ""); [reflexivity | exact H].
Qed.

Lemma flush_nil (cur : string) : Py.flush cur = [] <-> cur = "".
Proof. destruct cur; simpl; split; congruence. Qed.

Lemma split_go_nil (cur s : string) :
  Py.split_go cur s = [] <-> cur = "" /\ Py.all_space s = true.
Proof.
  revert cur. induction s as [|c s IH]; intros cur; simpl.
  - rewrite flush_nil. tauto.
  - destruct (Py.isspace c); simpl.
    + rewrite app_nil, flush_nil, IH. tauto.
    + rewrite IH. split; [|intros [_ ?]; discriminate].
      intros [E _]. destruct cur; discriminate.
Qed.

Lemma split_strip_nil (s : string) :
  Py.split (Py.strip s) = [] <-> Py.strip s = "".
Proof.
  unfold Py.split. rewrite split_go_nil. split.
  - intros [_ H]. apply strip_all_space, H.
  - intros ->. split; reflexivity.
Qed.

(** ** Facts about the [try] block of the ACL parser *)

Section Keeps.
Context (P : AclRecord -> Prop).

Lemma keeps_ret {A} (a : A) : keeps P (aret a).
Proof. intros r H. exact H. Qed.

Lemma keeps_tok tokens i : keeps P (tok tokens i).
Proof. intros r H. exact H. Qed.

Lemma keeps_bind {A B} (m : Acl A) (f : A -> Acl B) :
  keeps P m -> (forall a, keeps P (f a)) -> keeps P (abind m f).
Proof.
  intros Hm Hf r H. unfold abind. specialize (Hm r H).
  destruct (m r) as [r' [a|e]]; simpl in *; [apply Hf, Hm | exact Hm].
Qed.

Lemma keeps_if {A} (b : bool) (m1 m2 : Acl A) :
  keeps P m1 -> keeps P m2 -> keeps P (if b then m1 else m2).
Proof. destruct b; auto. Qed.
End Keeps.

(** Walks a statement of the [try] block; [leaf] closes the assignments. *)
Ltac keeps_walk leaf :=
  repeat first
    [ apply keeps_ret | apply keeps_tok | leaf
    | apply keeps_if
    | apply keeps_bind; [|intros ?] ].

Lemma keeps_frame_assign n a p rw k v :
  required_key k = false -> keeps (frame n a p rw) (assign k v).
Proof.
  intros Hk [] (? & ? & ? & ?). destruct k; try discriminate; repeat split; assumption.
Qed.

Lemma keeps_raw_assign rw k v : keeps (fun r => raw r = rw) (assign k v).
Proof. intros [] ?. destruct k; assumption. Qed.

Lemma port_clause_frame n a p rw tokens k idx :
  required_key k = false -> keeps (frame n a p rw) (port_clause tokens k idx).
Proof.
  intros Hk. unfold port_clause.
  keeps_walk ltac:(apply keeps_frame_assign; exact Hk).
Qed.

Lemma acl_clauses_frame n a p rw tokens :
  keeps (frame n a p rw) (acl_clauses tokens).
Proof.
  unfold acl_clauses.
  keeps_walk ltac:(first [ apply keeps_frame_assign; reflexivity
                         | apply port_clause_frame; reflexivity ]).
Qed.

Lemma acl_body_raw rw tokens : keeps (fun r => raw r = rw) (acl_body tokens).
Proof.
  unfold acl_body, acl_clauses, port_clause.
  keeps_walk ltac:(apply keeps_raw_assign).
Qed.

Lemma startswith_cons a p c s :
  Py.startswith (String a p) (String c s) =
  if Ascii.eqb a c then Py.startswith p s else false.
Proof. reflexivity. Qed.

Lemma startswith_app_l (s x : string) : Py.startswith s (s +:+ x) = true.
Proof.
  induction s as [|c s IH]; [reflexivity|].
  change (String c s +:+ x) with (String c (s +:+ x)). simpl.
  rewrite Ascii.eqb_refl. exact IH.
Qed.

Lemma startswith_refl (s : string) : Py.startswith s s = true.
Proof. induction s as [|c s IH]; simpl; [|rewrite Ascii.eqb_refl]; auto. Qed.

Lemma raw_acl_append_raw suffix r :
  raw (acl_append_raw suffix r) = raw r +:+ suffix.
Proof. destruct r. reflexivity. Qed.

Lemma frame_acl_append_raw n a p rw suffix r :
  frame n a p rw r -> frame n a p (rw +:+ suffix) (acl_append_raw suffix r).
Proof. destruct r. intros (? & ? & ? & ?). simpl in *. subst. repeat split. Qed.

(** With five tokens or more the three positional assignments go through
    and the walk over the clauses starts from the dict they leave. *)
Lemma acl_body_required t0 t1 t2 t3 t4 rest r :
  acl_body (t0 :: t1 :: t2 :: t3 :: t4 :: rest) r =
  acl_clauses (t0 :: t1 :: t2 :: t3 :: t4 :: rest)
    (acl_set K_protocol t4 (acl_set K_action t3 (acl_set K_acl_name t1 r))).
Proof. reflexivity. Qed.

Lemma acls_step_keep parsed line r :
  Py.startswith "access-list" line && Py.contains "advanced" line = true ->
  parse_acl_line line = Ok (Some r) ->
  acls_step parsed line = Ok (parsed ++ [r]).
Proof. intros Hf Hr. unfold acls_step. rewrite Hf, Hr. reflexivity. Qed.

(** ** The ACL parser *)

(** C1 (as the code has it). An ACL line whose token list is too short for
    the three positional fields is not filtered out: [parse_acl_line]
    returns the record with the positional fields that could be read
    ([acl_name] from token 1, [action] from token 3), every other field
    empty, and the diagnostic appended to [raw]; and [parse_acls] keeps that
    record when the line passes its filter. *)
Theorem short_acl_line_annotated (line : string) (tokens : list string) :
  Py.split (Py.strip line) = tokens ->
  tokens !! 0 = Some "access-list" ->
  length tokens < 5 ->
  let r := {| acl_name := default "" (tokens !! 1);
              action := default "" (tokens !! 3);
              protocol := "";
              source_zone := ""; source_type := ""; source_value := "";
              source_port := "";
              destination_zone := ""; destination_type := "";
              destination_value := ""; destination_port := "";
              rule_id := "";
              raw := Py.strip line +:+ "  # Parse error: list index out of range" |} in
  parse_acl_line line = Ok (Some r) /\
  (Py.startswith "access-list" line && Py.contains "advanced" line = true ->
   parse_acls [line] = Ok [r]).
Proof.
  intros Et H0 Hlen r.
  assert (parse_acl_line line = Ok (Some r)) as Hr.
  { unfold parse_acl_line. rewrite Et. subst r.
    destruct tokens as [|t0 [|t1 [|t2 [|t3 [|t4 ts]]]]];
      simpl in *; try discriminate; try lia;
      injection H0 as ->; reflexivity. }
  split; [exact Hr|]. intros Hf. unfold parse_acls. simpl.
  rewrite (acls_step_keep [] line r Hf Hr). reflexivity.
Qed.

Lemma short_acl_line_annotated_witness :
  parse_acl_line "access-list advanced" =
    Ok (Some (mkAcl "advanced" "" "" "" "" "" "" "" "" "" "" ""
                "access-list advanced  # Parse error: list index out of range")).
Proof.
  apply (short_acl_line_annotated "access-list advanced" ["access-list"; "advanced"]);
    [reflexivity | reflexivity | simpl; lia].
Defined.

(** C1 as stated fails: the two-token line [access-list advanced] passes the
    filter of [parse_acls], cannot supply the action, and still yields a
    record. *)
Lemma short_acl_line_not_dropped :
  parse_acls ["access-list advanced"] =
    Ok [ mkAcl "advanced" "" "" "" "" "" "" "" "" "" "" ""
           "access-list advanced  # Parse error: list index out of range" ].
Proof. vm_compute. reflexivity. Qed.

(** C3. Once the three positional fields of an ACL line were read, a fault
    in the walk over the clauses does not drop the line: [parse_acl_line]
    returns a record with those three fields; if the [try] block faults at
    dict state [st], the record is [st] with the diagnostic appended to
    [raw]; and the loop of [parse_acls] appends the record and goes on with
    the next line. *)
Theorem acl_fault_keeps_record (line : string) (tokens : list string) :
  Py.split (Py.strip line) = tokens ->
  tokens !! 0 = Some "access-list" ->
  5 <= length tokens ->
  exists r,
    parse_acl_line line = Ok (Some r) /\
    tokens !! 1 = Some (acl_name r) /\
    tokens !! 3 = Some (action r) /\
    tokens !! 4 = Some (protocol r) /\
    (forall st e,
       acl_body tokens (acl_init (Py.strip line)) = (st, Raise e) ->
       r = acl_append_raw (parse_error_suffix e) st /\
       raw r = Py.strip line +:+ "  # Parse error: list index out of range") /\
    (forall parsed rest,
       Py.startswith "access-list" line && Py.contains "advanced" line = true ->
       for_each acls_step parsed (line :: rest) =
       for_each acls_step (parsed ++ [r]) rest).
Proof.
  intros Et H0 Hlen.
  destruct tokens as [|t0 [|t1 [|t2 [|t3 [|t4 ts]]]]]; simpl in Hlen; try lia.
  injection H0 as ->.
  set (tokens := "access-list" :: t1 :: t2 :: t3 :: t4 :: ts) in *.
  set (r := try_except (acl_body tokens) (acl_init (Py.strip line))).
  assert (parse_acl_line line = Ok (Some r)) as Hr.
  { unfold parse_acl_line. rewrite Et. reflexivity. }
  assert (frame t1 t3 t4 (Py.strip line)
            (acl_body tokens (acl_init (Py.strip line))).1) as Hfr.
  { unfold tokens. rewrite acl_body_required. apply acl_clauses_frame.
    repeat split. }
  exists r. split; [exact Hr|].
  assert (acl_name r = t1 /\ action r = t3 /\ protocol r = t4) as (-> & -> & ->).
  { subst r. unfold try_except.
    destruct (acl_body tokens _) as [st [u|e]]; simpl in Hfr.
    - destruct Hfr as (? & ? & ? & ?). auto.
    - apply (frame_acl_append_raw _ _ _ _ (parse_error_suffix e)) in Hfr.
      destruct Hfr as (? & ? & ? & ?). auto. }
  repeat split.
  - subst r. unfold try_except. rewrite H. reflexivity.
  - subst r. unfold try_except. rewrite H in *. simpl in Hfr.
    rewrite raw_acl_append_raw. destruct Hfr as (_ & _ & _ & ->).
    destruct e. reflexivity.
  - intros parsed rest Hf. simpl.
    rewrite (acls_step_keep parsed line r Hf Hr). reflexivity.
Qed.

Lemma acl_fault_keeps_record_witness :
  exists r,
    parse_acl_line "access-list X advanced permit tcp host" = Ok (Some r) /\
    acl_name r = "X" /\ action r = "permit" /\ protocol r = "tcp" /\
    source_type r = "host" /\
    raw r = "access-list X advanced permit tcp host  # Parse error: list index out of range".
Proof.
  destruct (acl_fault_keeps_record "access-list X advanced permit tcp host"
              ["access-list"; "X"; "advanced"; "permit"; "tcp"; "host"])
    as (r & Hr & Hn & Ha & Hp & Hfault & _);
    [reflexivity | reflexivity | simpl; lia |].
  exists r. split; [exact Hr|].
  destruct (Hfault
    (mkAcl "X" "permit" "tcp" "" "host" "" "" "" "" "" "" ""
       "access-list X advanced permit tcp host") IndexError eq_refl) as [-> _].
  repeat split.
Defined.

(** C8 (as the code has it). [parse_acl_line] maps the line
    [access-list OUTSIDE_IN extended permit tcp object WEBSRV eq 443 any
    rule-id 268435456] to the record with source type [object], source
    value [WEBSRV], source port [443], destination type and value [any] and
    rule id [268435456]; [parse_acls] emits that record for the same line
    with [advanced] in the place of [extended]. *)
Theorem acl_example_line :
  parse_acl_line
    "access-list OUTSIDE_IN extended permit tcp object WEBSRV eq 443 any rule-id 268435456" =
    Ok (Some
      {| acl_name := "OUTSIDE_IN"; action := "permit"; protocol := "tcp";
         source_zone := ""; source_type := "object"; source_value := "WEBSRV";
         source_port := "443";
         destination_zone := ""; destination_type := "any";
         destination_value := "any"; destination_port := "";
         rule_id := "268435456";
         raw := "access-list OUTSIDE_IN extended permit tcp object WEBSRV eq 443 any rule-id 268435456" |}) /\
  parse_acls
    ["access-list OUTSIDE_IN advanced permit tcp object WEBSRV eq 443 any rule-id 268435456"] =
    Ok [ {| acl_name := "OUTSIDE_IN"; action := "permit"; protocol := "tcp";
            source_zone := ""; source_type := "object"; source_value := "WEBSRV";
            source_port := "443";
            destination_zone := ""; destination_type := "any";
            destination_value := "any"; destination_port := "";
            rule_id := "268435456";
            raw := "access-list OUTSIDE_IN advanced permit tcp object WEBSRV eq 443 any rule-id 268435456" |} ].
Proof. split; vm_compute; reflexivity. Qed.

(** C8 as stated fails: the line has no [advanced] marker, so the filter of
    [parse_acls] skips it and the pass yields no record. *)
Lemma acl_example_line_filtered_out :
  parse_acls
    ["access-list OUTSIDE_IN extended permit tcp object WEBSRV eq 443 any rule-id 268435456"] =
    Ok [].
Proof. vm_compute. reflexivity. Qed.

(** ** The object NAT parser *)

Lemma for_each_app {S} (body : S -> string -> result S) st l1 l2 :
  for_each body st (l1 ++ l2) =
  match for_each body st l1 with
  | Ok st' => for_each body st' l2
  | Raise e => Raise e
  end.
Proof.
  revert st. induction l1 as [|l l1 IH]; intros st; simpl; [reflexivity|].
  destruct (body st l); [apply IH | reflexivity].
Qed.

Lemma for_each_cons {S} (body : S -> string -> result S) st l ls :
  for_each body st (l :: ls) =
  match body st l with
  | Ok st' => for_each body st' ls
  | Raise e => Raise e
  end.
Proof. reflexivity. Qed.

Lemma split_sep_go_nonempty sep cur skip s : Py.split_sep_go sep cur skip s <> [].
Proof.
  revert cur skip. induction s as [|c s IH]; intros cur skip; simpl; [discriminate|].
  destruct skip; [|apply IH].
  destruct (Py.startswith sep (String c s)); [discriminate | apply IH].
Qed.

(** The index [1] after [split("object network")] is in range in the branch
    that uses it. *)
Lemma declared_name_ok line :
  is_object_decl line = true -> exists name, declared_name line = Ok name.
Proof.
  unfold is_object_decl, declared_name, Py.split_sep. intros H.
  destruct (Py.strip line) as [|c s]; [discriminate|].
  cbn [Py.split_sep_go]. rewrite H.
  pose proof (split_sep_go_nonempty "object network" "" (String.length "object network" - 1) s).
  destruct (Py.split_sep_go _ _ _ s) as [|x xs]; [congruence|].
  eexists. reflexivity.
Qed.

Lemma nat_step_object entries cur line name :
  is_object_decl line = true -> declared_name line = Ok name ->
  nat_step (entries, cur) line = Ok (entries, Some name).
Proof.
  unfold is_object_decl, declared_name, nat_step. intros -> H.
  destruct (index _ 1); simpl in *; congruence.
Qed.

Lemma nat_line_not_object line : is_nat_line line = true -> is_object_decl line = false.
Proof.
  unfold is_nat_line, is_object_decl. destruct (Py.strip line) as [|c s]; [discriminate|].
  rewrite !(startswith_cons _ _ c s).
  destruct (Ascii.eqb_spec "n" c) as [<-|]; [reflexivity | discriminate].
Qed.

Lemma lit_startswith {A} p (k : string -> option A) s x :
  Re.lit p k s = Some x -> Py.startswith p s = true.
Proof.
  revert s. induction p as [|a p IH]; intros s H; [reflexivity|].
  destruct s as [|b s]; [discriminate|]. simpl in *.
  destruct (Ascii.eqb a b); [eauto | discriminate].
Qed.

Lemma nat_pattern_nat_line line g :
  nat_pattern (Py.strip line) = Some g -> is_nat_line line = true.
Proof. unfold nat_pattern, is_nat_line. apply lit_startswith. Qed.

(** A line with the [nat] prefix read while a name is pending: the entry is
    appended when the pattern matches, and the pending name is cleared in
    either case. *)
Lemma nat_step_nat entries name line :
  name <> "" -> is_nat_line line = true ->
  nat_step (entries, Some name) line =
    Ok (match nat_pattern (Py.strip line) with
        | Some g => entries ++ [nat_entry name g line]
        | None => entries
        end, None).
Proof.
  intros Hn Hl. pose proof (nat_line_not_object _ Hl) as Ho.
  unfold is_nat_line, is_object_decl, nat_step in *. rewrite Ho, Hl. simpl.
  destruct (String.eqb_spec name ""); [contradiction|]. simpl.
  destruct (nat_pattern _) as [[[g1 g2] g3]|]; reflexivity.
Qed.

(** Lines that are not object declarations leave an empty pending name and
    the entries as they are. *)
Lemma nat_loop_idle entries lines :
  Forall (fun l => is_object_decl l = false) lines ->
  for_each nat_step (entries, None) lines = Ok (entries, None).
Proof.
  induction 1 as [|l lines Hl _ IH]; [reflexivity|]. cbn [for_each].
  unfold is_object_decl in Hl. unfold nat_step at 1. rewrite Hl.
  rewrite andb_false_r. exact IH.
Qed.

(** Lines that are neither object declarations nor [nat]-prefixed leave the
    whole state as it is. *)
Lemma nat_loop_neutral st lines :
  Forall (fun l => is_object_decl l = false /\ is_nat_line l = false) lines ->
  for_each nat_step st lines = Ok st.
Proof.
  induction 1 as [|l lines [Ho Hn] _ IH]; [reflexivity|]. cbn [for_each].
  unfold is_object_decl, is_nat_line in *. destruct st as [entries cur].
  unfold nat_step at 1. rewrite Ho, Hn. exact IH.
Qed.




(** C4 (as the code has it). The pending object name is cleared by every
    [nat]-prefixed line that is read while a name is pending, whether the
    line matches the static pattern (then a NatRecord is appended) or not;
    so when an object declaration is followed by a [nat]-prefixed line that
    does not match and then by one that does, the matching line finds no
    pending name and no NatRecord is produced. *)
Theorem nat_prefix_line_clears_pending (obj name bad good : string)
    (g : string * string * string) :
  is_object_decl obj = true ->
  declared_name obj = Ok name ->
  name <> "" ->
  is_nat_line bad = true ->
  nat_pattern (Py.strip bad) = None ->
  nat_pattern (Py.strip good) = Some g ->
  (forall entries, nat_step (entries, Some name) bad = Ok (entries, None)) /\
  (forall entries,
     nat_step (entries, Some name) good =
     Ok (entries ++ [nat_entry name g good], None)) /\
  parse_object_nat [obj; bad; good] = Ok [].
Proof.
  intros Hobj Hname Hne Hbad Hnone Hgood.
  assert (forall entries, nat_step (entries, Some name) bad = Ok (entries, None)) as Hb.
  { intros entries. rewrite (nat_step_nat _ _ _ Hne Hbad), Hnone. reflexivity. }
  split; [exact Hb|]. split.
  - intros entries.
    rewrite (nat_step_nat _ _ _ Hne (nat_pattern_nat_line _ _ Hgood)), Hgood.
    reflexivity.
  - unfold parse_object_nat.
    rewrite for_each_cons, (nat_step_object _ _ _ _ Hobj Hname).
    rewrite for_each_cons, Hb.
    rewrite (nat_loop_idle [] [good]); [reflexivity|].
    constructor; [|constructor].
    apply nat_line_not_object, (nat_pattern_nat_line _ _ Hgood).
Qed.

Lemma nat_prefix_line_clears_pending_witness :
  parse_object_nat
    ["object network WEBSRV"; "nat (inside,outside) dynamic interface";
     "nat (inside,outside) static WEBSRV-NAT"] = Ok [].
Proof.
  apply (nat_prefix_line_clears_pending
           "object network WEBSRV" "WEBSRV"
           "nat (inside,outside) dynamic interface"
           "nat (inside,outside) static WEBSRV-NAT"
           ("inside", "outside", "WEBSRV-NAT"));
    first [ reflexivity | discriminate ].
Defined.

(** C4 as stated fails: after the object declaration, the dynamic NAT line
    clears the pending name, and the static line that follows produces no
    NatRecord. *)
Lemma static_line_after_dynamic_unpaired :
  parse_object_nat
    ["object network WEBSRV"; "nat (inside,outside) dynamic interface";
     "nat (inside,outside) static WEBSRV-NAT"] = Ok [] /\
  nat_pattern "nat (inside,outside) dynamic interface" = None /\
  nat_pattern "nat (inside,outside) static WEBSRV-NAT" =
    Some ("inside", "outside", "WEBSRV-NAT").
Proof. repeat split; vm_compute; reflexivity. Qed.

(** ** The interface parser *)

Lemma index_lt (l : list string) i : i < length l -> exists x, index l i = Ok x.
Proof.
  intros H. unfold index. destruct (lookup_lt_is_Some_2 l i H) as [x ->]. eauto.
Qed.

Lemma index_ge (l : list string) i : length l <= i -> index l i = Raise IndexError.
Proof. intros H. unfold index. rewrite lookup_ge_None_2; [reflexivity | exact H]. Qed.

Lemma index_last_ok (l : list string) : 0 < length l -> exists x, index_last l = Ok x.
Proof.
  intros H. unfold index_last. destruct (last l) eqn:E; [eauto|].
  apply last_None in E. subst. simpl in H. lia.
Qed.

Lemma split_interface_prefix r :
  Py.split ("interface " +:+ r) = "interface" :: Py.split r.
Proof. reflexivity. Qed.

(** A stripped line that begins with [interface] and a space has a second
    token: the index [1] is in range in the branch that uses it. *)
Lemma interface_line_has_name line :
  is_header line = true -> exists name, index (Py.split (Py.strip line)) 1 = Ok name.
Proof.
  unfold is_header. intros H. destruct (startswith_app _ _ H) as [r Er].
  rewrite Er, split_interface_prefix.
  destruct (Py.split r) as [|name ts] eqn:Es; [|eexists; reflexivity].
  apply split_go_nil in Es as [_ Hsp].
  assert (String " " r = "") as Habs; [|discriminate].
  apply (rstrip_no_trailing_space (Py.lstrip line) "interface").
  - exact Er.
  - simpl. exact Hsp.
Qed.

Lemma interface_step_header ifs cur line :
  is_header line = true ->
  exists name,
    interface_step (ifs, cur) line =
    Ok (if dict_truthy cur then ifs ++ [cur] else ifs, new_interface name).
Proof.
  intros H. destruct (interface_line_has_name _ H) as [name Hn].
  exists name. unfold is_header in H. unfold interface_step. rewrite H, Hn.
  reflexivity.
Qed.

Lemma interface_step_terminator ifs cur line :
  is_terminator line = true ->
  interface_step (ifs, cur) line =
  Ok (if dict_truthy cur then (ifs ++ [cur], ∅) else (ifs, cur)).
Proof.
  unfold is_terminator. intros H%String.eqb_eq.
  unfold interface_step. rewrite H. cbn -[dict_truthy].
  destruct (dict_truthy cur); reflexivity.
Qed.

(** A line that is not a declaration and not short leaves the list of
    records alone and does not empty the current dict, unless it is the
    terminator. *)
Lemma interface_step_field ifs cur line :
  is_header line = false -> short_field_line line = false ->
  is_terminator line = false ->
  exists cur',
    interface_step (ifs, cur) line = Ok (ifs, cur') /\ (cur <> ∅ -> cur' <> ∅).
Proof.
  unfold is_header, short_field_line, is_terminator, interface_step.
  intros Hh Hs Ht. rewrite Hh in *. rewrite Ht.
  destruct (Py.startswith "nameif" _).
  { apply bool_decide_eq_false in Hs.
    destruct (index_lt (Py.split (Py.strip line)) 1) as [v ->]; [lia|].
    eexists. split; [reflexivity|]. intros _. apply insert_non_empty. }
  destruct (Py.startswith "security-level" _).
  { apply bool_decide_eq_false in Hs.
    destruct (index_lt (Py.split (Py.strip line)) 1) as [v ->]; [lia|].
    eexists. split; [reflexivity|]. intros _. apply insert_non_empty. }
  destruct (Py.startswith "ip address" _).
  { apply bool_decide_eq_false in Hs.
    destruct (index_lt (Py.split (Py.strip line)) 2) as [ip ->]; [lia|].
    destruct (index_lt (Py.split (Py.strip line)) 3) as [mask ->]; [lia|].
    destruct (index_last_ok (Py.split (Py.strip line))) as [sb Hsb]; [lia|].
    cbn [rbind]. rewrite Hsb. destruct (Py.contains "standby" _).
    - eexists. split; [reflexivity|]. intros _. apply insert_non_empty.
    - eexists. split; [reflexivity|]. intros _. apply insert_non_empty. }
  destruct (Py.startswith "vlan" _).
  { apply bool_decide_eq_false in Hs.
    destruct (index_lt (Py.split (Py.strip line)) 1) as [v ->]; [lia|].
    eexists. split; [reflexivity|]. intros _. apply insert_non_empty. }
  exists cur. split; [reflexivity | auto].
Qed.

Lemma interface_step_short st line :
  short_field_line line = true -> interface_step st line = Raise IndexError.
Proof.
  destruct st as [ifs cur]. unfold short_field_line, interface_step.
  destruct (Py.startswith "interface " _); [discriminate|].
  destruct (Py.startswith "nameif" _).
  { intros H%bool_decide_eq_true. rewrite index_ge; [reflexivity | lia]. }
  destruct (Py.startswith "security-level" _).
  { intros H%bool_decide_eq_true. rewrite index_ge; [reflexivity | lia]. }
  destruct (Py.startswith "ip address" _).
  { intros H%bool_decide_eq_true.
    destruct (decide (length (Py.split (Py.strip line)) <= 2)) as [Hl|Hl].
    - rewrite index_ge; [reflexivity | lia].
    - destruct (index_lt (Py.split (Py.strip line)) 2) as [ip ->]; [lia|].
      cbn [rbind]. rewrite index_ge; [reflexivity | lia]. }
  destruct (Py.startswith "vlan" _).
  { intros H%bool_decide_eq_true. rewrite index_ge; [reflexivity | lia]. }
  discriminate.
Qed.

Lemma interface_step_ok st line :
  short_field_line line = false -> exists st', interface_step st line = Ok st'.
Proof.
  intros Hs. destruct st as [ifs cur].
  destruct (is_header line) eqn:Hh.
  { destruct (interface_step_header ifs cur line Hh) as [name ->]. eauto. }
  destruct (is_terminator line) eqn:Ht.
  { rewrite (interface_step_terminator ifs cur line Ht). eauto. }
  destruct (interface_step_field ifs cur line Hh Hs Ht) as (cur' & -> & _). eauto.
Qed.

(** The loop of [parse_interfaces] completes exactly when no line is a
    short field line. *)
Lemma interface_loop_ok st lines :
  (exists st', for_each interface_step st lines = Ok st') <->
  Forall (fun l => short_field_line l = false) lines.
Proof.
  revert st. induction lines as [|l lines IH]; intros st.
  - split; [constructor | eauto].
  - rewrite for_each_cons, Forall_cons. destruct (short_field_line l) eqn:Hs.
    + rewrite (interface_step_short st l Hs). split.
      * intros [st' H]. discriminate.
      * intros [H _]. discriminate.
    + destruct (interface_step_ok st l Hs) as [st1 ->]. rewrite IH. tauto.
Qed.

Lemma for_each_total {S} (body : S -> string -> result S) :
  (forall st l, exists st', body st l = Ok st') ->
  forall lines st, exists st', for_each body st lines = Ok st'.
Proof.
  intros Hb. induction lines as [|l lines IH]; intros st; [eexists; reflexivity|].
  rewrite for_each_cons. destruct (Hb st l) as [st1 ->]. apply IH.
Qed.

Lemma nat_step_ok st line : exists st', nat_step st line = Ok st'.
Proof.
  destruct st as [entries cur]. destruct (is_object_decl line) eqn:Ho.
  - destruct (declared_name_ok _ Ho) as [name Hn].
    rewrite (nat_step_object _ _ _ _ Ho Hn). eauto.
  - unfold is_object_decl in Ho. unfold nat_step. rewrite Ho.
    destruct (_ && _); eauto.
Qed.

(** The index [0] is guarded by the test that the token list is not
    empty, and the handler takes every fault of the [try] block. *)
Lemma parse_acl_line_ok line : exists o, parse_acl_line line = Ok o.
Proof.
  unfold parse_acl_line. destruct (Py.split (Py.strip line)) as [|t0 ts].
  - eexists. reflexivity.
  - simpl. destruct (negb _); eexists; reflexivity.
Qed.

Lemma acls_step_ok parsed line : exists parsed', acls_step parsed line = Ok parsed'.
Proof.
  unfold acls_step. destruct (_ && _); [|eauto].
  destruct (parse_acl_line_ok line) as [[r|] ->]; simpl; eauto.
Qed.

(** C2 (as the code has it). [parse_object_nat] and [parse_acls] return
    their collection for every sequence of lines ([parse_routes] has no
    operation that can raise). [parse_interfaces] has no handler: it
    returns its collection exactly when no line is a short field line, and
    an [IndexError] leaves the pass exactly when some line is one, such as
    a line that consists of a field keyword only. *)
Theorem recognizers_fault_containment (lines : list string) :
  (exists rs, parse_object_nat lines = Ok rs) /\
  (exists rs, parse_acls lines = Ok rs) /\
  ((exists rs, parse_interfaces lines = Ok rs) <->
   Forall (fun l => short_field_line l = false) lines) /\
  (parse_interfaces lines = Raise IndexError <->
   Exists (fun l => short_field_line l = true) lines).
Proof.
  assert ((exists rs, parse_interfaces lines = Ok rs) <->
          Forall (fun l => short_field_line l = false) lines) as Hi.
  { rewrite <- (interface_loop_ok ([], ∅) lines). unfold parse_interfaces.
    destruct (for_each interface_step _ lines) as [[ifs cur]|e]; simpl.
    - split; eauto.
    - split; intros [? ?]; discriminate. }
  split; [|split; [|split; [exact Hi|]]].
  - unfold parse_object_nat.
    destruct (for_each_total nat_step nat_step_ok lines ([], None)) as [st ->].
    eexists. reflexivity.
  - apply (for_each_total acls_step acls_step_ok).
  - rewrite Exists_exists. split.
    + intros Hr. destruct (decide (Forall (fun l => short_field_line l = false) lines)) as [Hf|Hf].
      * apply Hi in Hf as [rs Hrs]. congruence.
      * apply not_Forall_Exists in Hf; [|intros l; apply _].
        apply Exists_exists in Hf as (l & Hin & Hl).
        exists l. split; [exact Hin|]. simpl in Hl.
        destruct (short_field_line l); [reflexivity | contradiction].
    + intros (l & Hin & Hl).
      destruct (parse_interfaces lines) as [rs|[]] eqn:E; [|reflexivity].
      assert (Forall (fun l => short_field_line l = false) lines) as Hf
        by (apply Hi; eauto).
      rewrite Forall_forall in Hf. specialize (Hf l Hin). congruence.
Qed.

(** C2 as stated fails: on the line [nameif], a field keyword alone, the
    index [1] is out of range and the [IndexError] leaves
    [parse_interfaces]. *)
Lemma bare_nameif_raises : parse_interfaces ["nameif"] = Raise IndexError.
Proof. vm_compute. reflexivity. Qed.

Lemma nameif_not_header line :
  Py.startswith "nameif" (Py.strip line) = true -> is_header line = false.
Proof.
  unfold is_header. destruct (Py.strip line) as [|c s]; [discriminate|].
  rewrite !(startswith_cons _ _ c s).
  destruct (Ascii.eqb_spec "n" c) as [<-|]; [reflexivity | discriminate].
Qed.

Lemma dict_truthy_true (d : gmap string string) : d <> ∅ -> dict_truthy d = true.
Proof. intros H. unfold dict_truthy. apply bool_decide_eq_true_2, H. Qed.

(** C5 as stated fails: the only line is a [nameif] line, no record is in
    progress when it is read, and the collection has a record made from
    it. *)
Lemma nameif_alone_makes_record :
  parse_interfaces ["nameif inside"] = Ok [ {[ "Name" := "inside" ]} ].
Proof. vm_compute. reflexivity. Qed.

Lemma new_interface_non_empty name : new_interface name <> ∅.
Proof. unfold new_interface. apply insert_non_empty. Qed.

Lemma header_not_terminator line : is_header line = true -> is_terminator line = false.
Proof.
  unfold is_header, is_terminator. intros H.
  destruct (String.eqb_spec (Py.strip line) "!") as [E|]; [|reflexivity].
  rewrite E in H. discriminate.
Qed.

(** The lines inside a block keep the record in progress and add nothing
    to the collection. *)
Lemma interface_loop_body ifs cur body :
  forallb is_body body = true -> cur <> ∅ ->
  exists cur',
    for_each interface_step (ifs, cur) body = Ok (ifs, cur') /\ cur' <> ∅.
Proof.
  revert cur. induction body as [|l body IH]; intros cur Hb Hc.
  - exists cur. split; [reflexivity | exact Hc].
  - cbn [forallb] in Hb. apply andb_true_iff in Hb as [Hl Hb].
    unfold is_body in Hl.
    apply andb_true_iff in Hl as [[Hh Ht]%andb_true_iff Hs].
    apply negb_true_iff in Hh, Ht, Hs.
    destruct (interface_step_field ifs cur l Hh Hs Ht) as (cur1 & E & Hc1).
    rewrite for_each_cons, E. apply IH; auto.
Qed.

(** A declaration line and the lines inside the block, read when no record
    is in progress. *)
Lemma interface_loop_open ifs b :
  valid_block b = true ->
  exists cur,
    for_each interface_step (ifs, ∅) (b.1 :: b.2) = Ok (ifs, cur) /\ cur <> ∅.
Proof.
  destruct b as [h body]. unfold valid_block. cbn [fst snd].
  intros [Hh Hb]%andb_true_iff.
  destruct (interface_step_header ifs ∅ h Hh) as [name E].
  rewrite for_each_cons, E. cbn [dict_truthy].
  replace (dict_truthy ∅) with false by reflexivity.
  apply interface_loop_body; [exact Hb | apply new_interface_non_empty].
Qed.

(** A closed block adds one record and leaves no record in progress. *)
Lemma interface_loop_closed ifs bt :
  valid_block bt.1 = true -> is_terminator bt.2 = true ->
  exists d, for_each interface_step (ifs, ∅) (closed_block bt) = Ok (ifs ++ [d], ∅).
Proof.
  intros Hv Ht. destruct (interface_loop_open ifs bt.1 Hv) as (cur & E & Hc).
  exists cur. unfold closed_block.
  change (bt.1.1 :: bt.1.2 ++ [bt.2]) with ((bt.1.1 :: bt.1.2) ++ [bt.2]).
  rewrite for_each_app, E, for_each_cons.
  rewrite (interface_step_terminator ifs cur bt.2 Ht), (dict_truthy_true cur Hc).
  reflexivity.
Qed.

Lemma interface_loop_blocks ifs blocks :
  Forall (fun bt => valid_block bt.1 = true /\ is_terminator bt.2 = true) blocks ->
  exists ds,
    for_each interface_step (ifs, ∅) (concat (map closed_block blocks)) =
      Ok (ifs ++ ds, ∅) /\
    length ds = length blocks.
Proof.
  intros H. revert ifs. induction H as [|bt blocks [Hv Ht] _ IH]; intros ifs.
  - exists []. rewrite app_nil_r. split; reflexivity.
  - destruct (interface_loop_closed ifs bt Hv Ht) as [d E].
    destruct (IH (ifs ++ [d])) as (ds & E' & Hlen).
    exists (d :: ds). cbn [map concat]. rewrite for_each_app, E, E'.
    rewrite <- app_assoc. split; [reflexivity|]. simpl. lia.
Qed.

Lemma count_terminators_app l1 l2 :
  count_terminators (l1 ++ l2) = count_terminators l1 + count_terminators l2.
Proof. unfold count_terminators. rewrite filter_app, length_app. reflexivity. Qed.

Lemma count_terminators_cons l ls :
  count_terminators (l :: ls) =
  (if is_terminator l then 1 else 0) + count_terminators ls.
Proof.
  unfold count_terminators. rewrite filter_cons.
  destruct (is_terminator l); [rewrite decide_True | rewrite decide_False];
    auto; discriminate.
Qed.

Lemma count_terminators_body body :
  forallb is_body body = true -> count_terminators body = 0.
Proof.
  induction body as [|l body IH]; [reflexivity|]. cbn [forallb].
  intros [Hl Hb]%andb_true_iff. rewrite count_terminators_cons, (IH Hb).
  unfold is_body in Hl. apply andb_true_iff in Hl as [[_ Ht]%andb_true_iff _].
  apply negb_true_iff in Ht. rewrite Ht. reflexivity.
Qed.

Lemma count_terminators_open b :
  valid_block b = true -> count_terminators (b.1 :: b.2) = 0.
Proof.
  unfold valid_block. intros [Hh Hb]%andb_true_iff.
  rewrite count_terminators_cons, (header_not_terminator _ Hh).
  apply (count_terminators_body _ Hb).
Qed.

Lemma count_terminators_blocks blocks :
  Forall (fun bt => valid_block bt.1 = true /\ is_terminator bt.2 = true) blocks ->
  count_terminators (concat (map closed_block blocks)) = length blocks.
Proof.
  induction 1 as [|bt blocks [Hv Ht] _ IH]; [reflexivity|].
  cbn [map concat length]. rewrite count_terminators_app, IH.
  unfold closed_block.
  change (bt.1.1 :: bt.1.2 ++ [bt.2]) with ((bt.1.1 :: bt.1.2) ++ [bt.2]).
  rewrite count_terminators_app, (count_terminators_open _ Hv).
  rewrite count_terminators_cons, Ht. reflexivity.
Qed.

(** C6. For an input made of valid interface blocks, each closed by the
    bare terminator line, followed by at most one final block without
    terminator, [parse_interfaces] returns as many records as the input has
    terminator lines, plus one when the final block lacks its terminator. *)
Theorem interface_record_count
    (blocks : list (string * list string * string))
    (final : option (string * list string)) :
  Forall (fun bt => valid_block bt.1 = true /\ is_terminator bt.2 = true) blocks ->
  (forall b, final = Some b -> valid_block b = true) ->
  let input := concat (map closed_block blocks) ++ open_block final in
  exists rs,
    parse_interfaces input = Ok rs /\
    length rs =
      count_terminators input + match final with Some _ => 1 | None => 0 end /\
    count_terminators input = length blocks.
Proof.
  intros Hb Hf input. subst input.
  destruct (interface_loop_blocks [] blocks Hb) as (ds & E & Hlen).
  pose proof (count_terminators_blocks blocks Hb) as Hc.
  unfold parse_interfaces. rewrite for_each_app, E, count_terminators_app, Hc.
  destruct final as [[h body]|]; cbn [open_block].
  - specialize (Hf (h, body) eq_refl).
    destruct (interface_loop_open ([] ++ ds) (h, body) Hf) as (cur & E' & Hcur).
    cbn [fst snd] in E'. rewrite E'. cbn [rbind].
    rewrite (dict_truthy_true cur Hcur).
    pose proof (count_terminators_open (h, body) Hf) as Ho. cbn [fst snd] in Ho.
    rewrite Ho. eexists. split; [reflexivity|]. rewrite !length_app. simpl. lia.
  - cbn [for_each rbind]. replace (dict_truthy ∅) with false by reflexivity.
    eexists. split; [reflexivity|]. simpl. unfold count_terminators. simpl. lia.
Qed.

Lemma interface_record_count_witness :
  exists rs,
    parse_interfaces
      ["interface GigabitEthernet0/0"; " nameif outside"; " security-level 0";
       " ip address 198.51.100.1 255.255.255.0 standby 198.51.100.2"; "!";
       "interface GigabitEthernet0/1"; " vlan 20"; " nameif inside"] = Ok rs /\
    length rs = 2.
Proof.
  destruct (interface_record_count
    [ ("interface GigabitEthernet0/0",
       [" nameif outside"; " security-level 0";
        " ip address 198.51.100.1 255.255.255.0 standby 198.51.100.2"],
       "!") ]
    (Some ("interface GigabitEthernet0/1", [" vlan 20"; " nameif inside"])))
    as (rs & Hrs & Hlen & Hc).
  - repeat constructor.
  - intros b [= <-]. reflexivity.
  - exists rs. split; [exact Hrs|]. rewrite Hlen, Hc. reflexivity.
Defined.

(** * Further properties *)

(** ** Strings and patterns *)

Lemma str_app_nil_r (s : string) : s +:+ "" = s.
Proof.
  induction s as [|c s IH]; [reflexivity|].
  change (String c s +:+ "") with (String c (s +:+ "")). rewrite IH. reflexivity.
Qed.

Lemma str_app_assoc (a b c : string) : (a +:+ b) +:+ c = a +:+ (b +:+ c).
Proof.
  induction a as [|x a IH]; [reflexivity|].
  change (String x a +:+ b) with (String x (a +:+ b)).
  change (String x (a +:+ b) +:+ c) with (String x ((a +:+ b) +:+ c)).
  rewrite IH. reflexivity.
Qed.

Lemma str_app_snoc (acc : string) c g :
  (acc +:+ String c "") +:+ g = acc +:+ String c g.
Proof. rewrite str_app_assoc. reflexivity. Qed.

(** What a literal matched and what its continuation got. *)
Lemma lit_inv {A} p (k : string -> option A) s x :
  Re.lit p k s = Some x -> exists rest, s = p +:+ rest /\ k rest = Some x.
Proof.
  revert s. induction p as [|a p IH]; intros s H.
  - exists s. split; [reflexivity | exact H].
  - destruct s as [|b s]; [discriminate|]. simpl in H.
    destruct (Ascii.eqb_spec a b) as [->|]; [|discriminate].
    destruct (IH _ H) as (rest & -> & Hk). exists rest. split; [reflexivity | exact Hk].
Qed.

Lemma star_inv {A} C (k : string -> string -> option A) acc s x :
  Re.star C k acc s = Some x ->
  exists g rest, s = g +:+ rest /\ all_in C g = true /\ k (acc +:+ g) rest = Some x.
Proof.
  revert acc. induction s as [|c s IH]; intros acc H; simpl in H.
  - exists "", "". repeat split. rewrite str_app_nil_r. exact H.
  - destruct (C c) eqn:Ec.
    + destruct (Re.star C k (acc +:+ String c "") s) as [y|] eqn:E.
      * injection H as ->. destruct (IH _ E) as (g & rest & -> & Hg & Hk).
        exists (String c g), rest. rewrite str_app_snoc in Hk.
        split; [reflexivity|]. split; [simpl; rewrite Ec; exact Hg | exact Hk].
      * exists "", (String c s). repeat split. rewrite str_app_nil_r. exact H.
    + exists "", (String c s). repeat split. rewrite str_app_nil_r. exact H.
Qed.

(** What a group matched: a non-empty run over its class. *)
Lemma plus_inv {A} C (k : string -> string -> option A) s x :
  Re.plus C k s = Some x ->
  exists g rest,
    s = g +:+ rest /\ g <> "" /\ all_in C g = true /\ k g rest = Some x.
Proof.
  unfold Re.plus. destruct s as [|c s]; [discriminate|].
  destruct (C c) eqn:Ec; [|discriminate]. intros H.
  destruct (star_inv _ _ _ _ _ H) as (g & rest & -> & Hg & Hk).
  exists (String c g), rest. split; [reflexivity|]. split; [discriminate|].
  split; [simpl; rewrite Ec; exact Hg | exact Hk].
Qed.

(** A run over the class that cannot go on is what the greedy repetition
    takes first; when the continuation accepts there, that is the match. *)
Lemma star_run {A} C (k : string -> string -> option A) acc g rest x :
  all_in C g = true -> stops C rest = true ->
  k (acc +:+ g) rest = Some x ->
  Re.star C k acc (g +:+ rest) = Some x.
Proof.
  revert acc. induction g as [|c g IH]; intros acc Hg Hs Hk.
  - rewrite str_app_nil_r in Hk. change ("" +:+ rest) with rest.
    destruct rest as [|c r]; [exact Hk|]. simpl in *.
    destruct (C c); [discriminate | exact Hk].
  - simpl in Hg. apply andb_true_iff in Hg as [Ec Hg].
    change (String c g +:+ rest) with (String c (g +:+ rest)). simpl.
    rewrite Ec, (IH (acc +:+ String c "") Hg Hs); [reflexivity|].
    rewrite str_app_snoc. exact Hk.
Qed.

Lemma plus_run {A} C (k : string -> string -> option A) g rest x :
  g <> "" -> all_in C g = true -> stops C rest = true ->
  k g rest = Some x ->
  Re.plus C k (g +:+ rest) = Some x.
Proof.
  destruct g as [|c g]; [congruence|]. intros _ Hg Hs Hk.
  simpl in Hg. apply andb_true_iff in Hg as [Ec Hg].
  change (String c g +:+ rest) with (String c (g +:+ rest)). unfold Re.plus.
  rewrite Ec. apply star_run; auto.
Qed.

Lemma lit_run {A} p (k : string -> option A) rest :
  Re.lit p k (p +:+ rest) = k rest.
Proof.
  induction p as [|a p IH]; [reflexivity|].
  change (String a p +:+ rest) with (String a (p +:+ rest)). simpl.
  rewrite Ascii.eqb_refl. exact IH.
Qed.

Lemma plus_whole {A} C (k : string -> string -> option A) g x :
  g <> "" -> all_in C g = true -> k g "" = Some x -> Re.plus C k g = Some x.
Proof.
  intros Hne Hg Hk. rewrite <- (str_app_nil_r g).
  apply plus_run; auto.
Qed.

(** ** The route parser, beyond the example *)

Lemma route_step_entry es line :
  route_step es line =
  es ++ match route_pattern (Py.strip line) with
        | Some g => [route_entry g]
        | None => []
        end.
Proof.
  unfold route_step. destruct (route_pattern _) as [[[[[g1 g2] g3] g4] g5]|].
  - reflexivity.
  - rewrite app_nil_r. reflexivity.
Qed.

Lemma route_loop_acc acc lines :
  foldl route_step acc lines = acc ++ foldl route_step [] lines.
Proof.
  revert acc. induction lines as [|l lines IH]; intros acc; simpl.
  - rewrite app_nil_r. reflexivity.
  - rewrite (IH (route_step acc l)), (IH (route_step [] l)).
    rewrite (route_step_entry acc), (route_step_entry []), app_assoc.
    reflexivity.
Qed.

(** X1. The route parser works line by line: the records of a
    concatenation are the records of the first part followed by the
    records of the second, in the order of the lines. *)
Theorem parse_routes_app (lines1 lines2 : list string) :
  parse_routes (lines1 ++ lines2) = parse_routes lines1 ++ parse_routes lines2.
Proof.
  unfold parse_routes. rewrite foldl_app. apply route_loop_acc.
Qed.

Lemma route_pattern_inv s g1 g2 g3 g4 m :
  route_pattern s = Some (g1, g2, g3, g4, m) ->
  exists rest,
    s = "route " +:+ g1 +:+ " " +:+ g2 +:+ " " +:+ g3 +:+ " " +:+ g4 +:+ rest /\
    is_word g1 /\ is_word g2 /\ is_word g3 /\ is_word g4 /\
    match m with
    | Some g5 =>
        g5 <> "" /\ all_in Py.isdigit g5 = true /\
        exists rest', rest = " " +:+ g5 +:+ rest'
    | None => True
    end.
Proof.
  unfold route_pattern. intros H.
  apply lit_inv in H as (s1 & -> & H).
  apply plus_inv in H as (a & s2 & -> & Ha & Ha' & H).
  apply lit_inv in H as (s3 & -> & H).
  apply plus_inv in H as (b & s4 & -> & Hb & Hb' & H).
  apply lit_inv in H as (s5 & -> & H).
  apply plus_inv in H as (c & s6 & -> & Hc & Hc' & H).
  apply lit_inv in H as (s7 & -> & H).
  apply plus_inv in H as (d & rest & -> & Hd & Hd' & H).
  destruct (Re.lit " " _ rest) as [g5|] eqn:E; injection H as <- <- <- <- <-.
  - apply lit_inv in E as (s8 & -> & E).
    apply plus_inv in E as (g & rest' & -> & Hg & Hg' & [= <-]).
    eexists. repeat split; eauto.
  - exists rest. repeat split; auto.
Qed.

Lemma route_loop_elem r acc lines :
  r ∈ foldl route_step acc lines ->
  r ∈ acc \/
  exists line g,
    line ∈ lines /\ route_pattern (Py.strip line) = Some g /\ r = route_entry g.
Proof.
  revert acc. induction lines as [|l lines IH]; intros acc H; simpl in H.
  - left. exact H.
  - apply IH in H as [H|(line & g & Hin & Hg & ->)].
    + rewrite route_step_entry in H. apply elem_of_app in H as [H|H]; [left; exact H|].
      right. destruct (route_pattern (Py.strip l)) as [g|] eqn:E.
      * apply list_elem_of_singleton in H as ->. exists l, g.
        split; [left | auto].
      * inversion H.
    + right. exists line, g. split; [right; exact Hin | auto].
Qed.

(** X2. Every record of the route parser comes from a line of the input
    whose stripped text is [route], the four fields separated by single
    spaces, and a rest; the four fields are non-empty and free of
    whitespace, the metric consists of digits, and a non-empty metric
    follows the gateway after one space. *)
Theorem route_records_sound (lines : list string) (r : RouteRecord) :
  r ∈ parse_routes lines ->
  exists line rest,
    line ∈ lines /\
    Py.strip line =
      "route " +:+ r_interface r +:+ " " +:+ r_destination r +:+ " " +:+
      r_netmask r +:+ " " +:+ r_gateway r +:+ rest /\
    is_word (r_interface r) /\ is_word (r_destination r) /\
    is_word (r_netmask r) /\ is_word (r_gateway r) /\
    all_in Py.isdigit (r_metric r) = true /\
    (r_metric r <> "" -> exists rest', rest = " " +:+ r_metric r +:+ rest').
Proof.
  unfold parse_routes. intros H.
  apply route_loop_elem in H as [H|(line & g & Hin & Hg & ->)]; [inversion H|].
  destruct g as [[[[g1 g2] g3] g4] m].
  apply route_pattern_inv in Hg as (rest & Hs & H1 & H2 & H3 & H4 & Hm).
  exists line, rest. cbn [route_entry r_interface r_destination r_netmask
                          r_gateway r_metric fst snd].
  do 6 (split; [assumption|]).
  destruct m as [g5|]; simpl.
  - destruct Hm as (_ & Hd & Hr). split; [exact Hd | intros _; exact Hr].
  - split; [reflexivity | congruence].
Qed.

Lemma route_records_sound_witness :
  exists line rest,
    line ∈ ["hostname fw"; " route outside 10.0.0.0 255.0.0.0 192.168.1.1 1x"] /\
    Py.strip line = "route outside 10.0.0.0 255.0.0.0 192.168.1.1" +:+ rest.
Proof.
  destruct (route_records_sound
              ["hostname fw"; " route outside 10.0.0.0 255.0.0.0 192.168.1.1 1x"]
              (mkRoute "outside" "10.0.0.0" "255.0.0.0" "192.168.1.1" "1"))
    as (line & rest & Hin & Hs & _).
  - vm_compute. left.
  - exists line, rest. split; [exact Hin | exact Hs].
Defined.

(** X3. A line whose stripped text is [route] and four whitespace-free
    fields separated by single spaces, optionally followed by a space and
    a metric of digits, is parsed into exactly these fields. *)
Theorem route_line_parsed (line a b c d m : string) :
  is_word a -> is_word b -> is_word c -> is_word d ->
  all_in Py.isdigit m = true ->
  Py.strip line =
    "route " +:+ a +:+ " " +:+ b +:+ " " +:+ c +:+ " " +:+ d +:+
    match m with "" => "" | _ => " " +:+ m end ->
  parse_routes [line] =
    [ {| r_interface := a; r_destination := b; r_netmask := c;
         r_gateway := d; r_metric := m |} ].
Proof.
  intros [Ha Ha'] [Hb Hb'] [Hc Hc'] [Hd Hd'] Hm Hs.
  unfold parse_routes. cbn [foldl]. rewrite route_step_entry, Hs.
  assert (route_pattern
            ("route " +:+ a +:+ " " +:+ b +:+ " " +:+ c +:+ " " +:+ d +:+
             match m with "" => "" | _ => " " +:+ m end) =
          Some (a, b, c, d, match m with "" => None | _ => Some m end)) as ->.
  { unfold route_pattern. rewrite lit_run.
    apply plus_run; [assumption..|reflexivity|]. rewrite lit_run.
    apply plus_run; [assumption..|reflexivity|]. rewrite lit_run.
    apply plus_run; [assumption..|reflexivity|]. rewrite lit_run.
    destruct m as [|x m].
    - apply plus_run; [assumption..|reflexivity|]. reflexivity.
    - apply plus_run; [assumption..|reflexivity|]. rewrite lit_run.
      rewrite (plus_whole Py.isdigit _ (String x m) (String x m));
        [reflexivity | discriminate | exact Hm | reflexivity]. }
  destruct m; reflexivity.
Qed.

Lemma route_line_parsed_witness :
  parse_routes ["  route inside 172.16.0.0 255.240.0.0 10.1.1.254 25 "] =
    [ mkRoute "inside" "172.16.0.0" "255.240.0.0" "10.1.1.254" "25" ].
Proof.
  apply route_line_parsed; first [ reflexivity | split; [discriminate | reflexivity] ].
Defined.

(** ** The object NAT parser, beyond the claims *)

(** An invariant of the lines read so far and the state, kept by every
    iteration that returns, holds at the end of the loop. *)
Lemma for_each_prefix_inv {S} (body : S -> string -> result S)
    (I : list string -> S -> Prop) :
  (forall done st l st', I done st -> body st l = Ok st' -> I (done ++ [l]) st') ->
  forall lines done st st',
    I done st -> for_each body st lines = Ok st' -> I (done ++ lines) st'.
Proof.
  intros Hstep. induction lines as [|l lines IH]; intros done st st' HI H.
  - injection H as <-. rewrite app_nil_r. exact HI.
  - rewrite for_each_cons in H. destruct (body st l) as [st1|e] eqn:E; [|discriminate].
    replace (done ++ l :: lines) with ((done ++ [l]) ++ lines)
      by (rewrite <- app_assoc; reflexivity).
    eapply IH; [|exact H]. eapply Hstep; eauto.
Qed.

(** The three ways an iteration of [parse_object_nat] can go. *)
Lemma nat_step_cases es cur line :
  (is_object_decl line = true /\
   exists name, declared_name line = Ok name /\
                nat_step (es, cur) line = Ok (es, Some name)) \/
  (is_object_decl line = false /\ is_nat_line line = true /\
   exists name, cur = Some name /\ name <> "" /\
     nat_step (es, cur) line =
       Ok (match nat_pattern (Py.strip line) with
           | Some g => es ++ [nat_entry name g line]
           | None => es
           end, None)) \/
  (is_object_decl line = false /\
   (is_nat_line line = false \/ object_truthy cur = false) /\
   nat_step (es, cur) line = Ok (es, cur)).
Proof.
  destruct (is_object_decl line) eqn:Ho.
  - left. split; [reflexivity|]. destruct (declared_name_ok _ Ho) as [name Hn].
    exists name. split; [exact Hn | apply nat_step_object; assumption].
  - right. destruct (is_nat_line line) eqn:Hl.
    + destruct (object_truthy cur) eqn:Ht.
      * left. do 2 (split; [reflexivity|]).
        destruct cur as [name|]; [|discriminate]. exists name.
        assert (name <> "") as Hne.
        { intros ->. discriminate. }
        split; [reflexivity|]. split; [exact Hne | apply nat_step_nat; assumption].
      * right. split; [reflexivity|]. split; [right; reflexivity|].
        unfold is_object_decl, is_nat_line in *. unfold nat_step.
        rewrite Ho, Hl, Ht. reflexivity.
    + right. split; [reflexivity|]. split; [left; reflexivity|].
      unfold is_object_decl, is_nat_line in *. unfold nat_step.
      rewrite Ho, Hl. reflexivity.
Qed.

Lemma count_object_decls_snoc done l :
  count_object_decls (done ++ [l]) =
  count_object_decls done + (if is_object_decl l then 1 else 0).
Proof.
  unfold count_object_decls. rewrite filter_app, length_app. f_equal.
  rewrite filter_cons, filter_nil.
  destruct (is_object_decl l); [rewrite decide_True | rewrite decide_False];
    auto; discriminate.
Qed.

(** X4. One-shot pairing: the object NAT parser returns at most as many
    records as the input has object declarations. *)
Theorem nat_records_bounded (lines : list string) :
  exists rs,
    parse_object_nat lines = Ok rs /\ length rs <= count_object_decls lines.
Proof.
  unfold parse_object_nat.
  destruct (for_each_total nat_step nat_step_ok lines ([], None)) as [[rs cur] E].
  rewrite E. exists rs. split; [reflexivity|].
  pose (I := fun (done : list string) (st : list NatRecord * option string) =>
               length st.1 + (if object_truthy st.2 then 1 else 0)
               <= count_object_decls done).
  enough (I ([] ++ lines) (rs, cur)) as H
    by (unfold I in H; cbn [fst snd app] in H; lia).
  apply (for_each_prefix_inv nat_step I) with (st := ([], None));
    [|unfold I; cbn; lia|exact E].
  clear. intros done [es cur] l st' HI H. unfold I in *. simpl in HI.
  rewrite count_object_decls_snoc.
  destruct (nat_step_cases es cur l)
    as [(-> & name & _ & E)|[(-> & _ & name & -> & Hne & E)|(-> & _ & E)]];
    rewrite E in H; injection H as <-; simpl.
  - destruct (negb _), (object_truthy cur); lia.
  - cbn [fst snd object_truthy] in HI.
    destruct (String.eqb_spec name ""); [contradiction|]. cbn [negb] in HI.
    destruct (nat_pattern _); [rewrite length_app; simpl|]; lia.
  - lia.
Qed.

Lemma nat_pairing_snoc done l r : nat_pairing done r -> nat_pairing (done ++ [l]) r.
Proof.
  intros (before & obj & mid & natl & after & g & -> & H).
  exists before, obj, mid, natl, (after ++ [l]), g. split; [|exact H].
  rewrite <- !app_assoc. reflexivity.
Qed.

Lemma nat_pattern_inv s g1 g2 g3 :
  nat_pattern s = Some (g1, g2, g3) ->
  exists rest,
    s = "nat (" +:+ g1 +:+ "," +:+ g2 +:+ ") static " +:+ g3 +:+ rest /\
    is_word g1 /\ is_word g2 /\ is_word g3.
Proof.
  unfold nat_pattern. intros H.
  apply lit_inv in H as (s1 & -> & H).
  apply plus_inv in H as (a & s2 & -> & Ha & Ha' & H).
  apply lit_inv in H as (s3 & -> & H).
  apply plus_inv in H as (b & s4 & -> & Hb & Hb' & H).
  apply lit_inv in H as (s5 & -> & H).
  apply plus_inv in H as (c & rest & -> & Hc & Hc' & [= <- <- <-]).
  exists rest. repeat split; auto.
Qed.

(** The loop of [parse_object_nat] keeps: every entry is a pairing within
    the lines read, and the pending name is backed by a declaration. *)
Lemma nat_loop_pairing lines es cur :
  for_each nat_step ([], None) lines = Ok (es, cur) ->
  (forall r, r ∈ es -> nat_pairing lines r) /\ nat_pending lines cur.
Proof.
  intros E.
  pose (I := fun (done : list string) (st : list NatRecord * option string) =>
               (forall r, r ∈ st.1 -> nat_pairing done r) /\ nat_pending done st.2).
  change (I ([] ++ lines) (es, cur)).
  apply (for_each_prefix_inv nat_step I) with (st := ([], None)); [| |exact E].
  2:{ split; [intros r Hr; inversion Hr | intros name; discriminate]. }
  clear. intros done [es cur] l st' [Hes Hcur] H. unfold I. cbn [fst snd] in *.
  destruct (nat_step_cases es cur l)
    as [(Ho & name & Hn & E)|[(Ho & Hl & name & -> & Hne & E)|(Ho & Hl & E)]];
    rewrite E in H; injection H as <-; cbn [fst snd].
  - split; [intros r Hr; apply nat_pairing_snoc, Hes, Hr|].
    intros name' [= <-] _. exists done, l, []. rewrite app_nil_r. auto.
  - split; [|intros name'; discriminate].
    intros r Hr. destruct (nat_pattern (Py.strip l)) as [g|] eqn:Eg;
      [|apply nat_pairing_snoc, Hes, Hr].
    apply elem_of_app in Hr as [Hr|Hr]; [apply nat_pairing_snoc, Hes, Hr|].
    apply list_elem_of_singleton in Hr as ->.
    destruct (Hcur name eq_refl Hne) as (before & obj & mid & -> & Hobj & Hname & Hmid).
    exists before, obj, mid, l, [], g. cbn [nat_entry object_name].
    rewrite <- !app_assoc. auto 10.
  - split; [intros r Hr; apply nat_pairing_snoc, Hes, Hr|].
    intros name -> Hne.
    destruct (Hcur name eq_refl Hne) as (before & obj & mid & -> & Hobj & Hname & Hmid).
    exists before, obj, (mid ++ [l]). rewrite <- !app_assoc.
    split; [reflexivity|]. do 2 (split; [assumption|]).
    apply Forall_app. split; [exact Hmid|]. constructor; [|constructor].
    split; [exact Ho|]. destruct Hl as [Hl|Hl]; [exact Hl|].
    cbn in Hl. destruct (String.eqb_spec name ""); [contradiction | discriminate].
Qed.

(** X5. Every record of the object NAT parser pairs an object declaration
    of the input, whose non-empty name it carries, with a later line that
    matches the static pattern, only lines that are neither object
    declarations nor [nat]-prefixed lying between the two; its type is
    [static], its raw text is the stripped NAT line, and that text is
    [nat (], the source interface, a comma, the destination interface,
    [) static ], the translated object and a rest, the three fields being
    non-empty and free of whitespace. *)
Theorem nat_records_sound (lines : list string) (rs : list NatRecord)
    (r : NatRecord) :
  parse_object_nat lines = Ok rs ->
  r ∈ rs ->
  nat_pairing lines r /\
  nat_type r = "static" /\
  (exists rest,
     nat_raw r =
       "nat (" +:+ source_interface r +:+ "," +:+ destination_interface r +:+
       ") static " +:+ translated_object r +:+ rest) /\
  is_word (source_interface r) /\
  is_word (destination_interface r) /\
  is_word (translated_object r).
Proof.
  unfold parse_object_nat. intros H Hr.
  destruct (for_each nat_step ([], None) lines) as [[es cur]|e] eqn:E;
    [|discriminate].
  injection H as <-. cbn [fst] in Hr.
  destruct (nat_loop_pairing lines es cur E) as [Hes _].
  pose proof (Hes r Hr) as Hp. split; [exact Hp|].
  destruct Hp as (before & obj & mid & natl & after & [[g1 g2] g3] & _ & _ & _ & _ & _ & Hg & Hrg).
  apply nat_pattern_inv in Hg as (rest & Hs & H1 & H2 & H3).
  rewrite Hrg. cbn [nat_entry nat_type nat_raw source_interface
                    destination_interface translated_object fst snd].
  split; [reflexivity|]. split; [exists rest; exact Hs | auto].
Qed.

Lemma nat_records_sound_witness :
  nat_pairing
    ["object network A"; "object network B"; " host 10.0.0.7";
     " nat (inside,outside) static B-pub"; "nat (dmz,outside) static C-pub"]
    (mkNat "B" "inside" "outside" "static" "B-pub"
       "nat (inside,outside) static B-pub").
Proof.
  apply (nat_records_sound
           ["object network A"; "object network B"; " host 10.0.0.7";
            " nat (inside,outside) static B-pub"; "nat (dmz,outside) static C-pub"]
           [mkNat "B" "inside" "outside" "static" "B-pub"
              "nat (inside,outside) static B-pub"]);
    [vm_compute; reflexivity | left].
Defined.

(** Entries already collected do not influence the loop. *)
Lemma nat_loop_acc es cur lines :
  for_each nat_step (es, cur) lines =
  match for_each nat_step ([], cur) lines with
  | Ok (es', cur') => Ok (es ++ es', cur')
  | Raise e => Raise e
  end.
Proof.
  revert es cur. induction lines as [|l lines IH]; intros es cur.
  - cbn. rewrite app_nil_r. reflexivity.
  - rewrite !for_each_cons.
    destruct (nat_step_cases es cur l)
      as [(Ho & name & Hn & E)|[(Ho & Hl & name & -> & Hne & E)|(Ho & Hl & E)]];
      rewrite E.
    + rewrite (nat_step_object [] cur l name Ho Hn). apply IH.
    + rewrite (nat_step_nat [] name l Hne Hl).
      destruct (nat_pattern (Py.strip l)) as [g|]; [|apply IH].
      rewrite (IH (es ++ _)), (IH ([] ++ _)).
      destruct (for_each nat_step ([], None) lines) as [[es' cur']|e];
        [rewrite <- app_assoc|]; reflexivity.
    + destruct (nat_step_cases [] cur l)
        as [(Ho' & _)|[(_ & Hl' & name & -> & Hne & _)|(_ & _ & E')]].
      * congruence.
      * destruct Hl as [Hl|Hl]; [congruence|]. cbn in Hl.
        destruct (String.eqb_spec name ""); [contradiction | discriminate].
      * rewrite E'. apply IH.
Qed.

(** X6. An object declaration with a non-empty name that is followed, with
    only neutral lines between, by a line matching the static pattern
    always yields its record, whatever lines come before and after: the
    result is the records of the lines before, this record, and the
    records of the lines after as parsed on their own. *)
Theorem nat_pairing_complete (pre post mid : list string)
    (obj name natl : string) (g : string * string * string) :
  is_object_decl obj = true ->
  declared_name obj = Ok name ->
  name <> "" ->
  Forall nat_neutral mid ->
  nat_pattern (Py.strip natl) = Some g ->
  exists es es',
    parse_object_nat pre = Ok es /\
    parse_object_nat post = Ok es' /\
    parse_object_nat (pre ++ [obj] ++ mid ++ [natl] ++ post) =
      Ok (es ++ [nat_entry name g natl] ++ es').
Proof.
  intros Hobj Hname Hne Hmid Hg. unfold parse_object_nat.
  destruct (for_each_total nat_step nat_step_ok pre ([], None)) as [[es cur] E].
  destruct (for_each_total nat_step nat_step_ok post ([], None)) as [[es' cur'] E'].
  exists es, es'. rewrite E, E'. do 2 (split; [reflexivity|]).
  rewrite for_each_app, E. cbn [app]. rewrite for_each_cons.
  rewrite (nat_step_object _ _ _ _ Hobj Hname).
  rewrite for_each_app, (nat_loop_neutral _ mid Hmid). cbn [app].
  rewrite for_each_cons.
  rewrite (nat_step_nat _ _ _ Hne (nat_pattern_nat_line _ _ Hg)), Hg.
  rewrite nat_loop_acc, E'. cbn [rbind fst]. rewrite <- app_assoc. reflexivity.
Qed.

Lemma nat_pairing_complete_witness :
  parse_object_nat
    (["object network A"; "nat (inside,outside) dynamic interface"] ++
     ["object network B"] ++ [" host 10.0.0.7"] ++
     [" nat (inside,outside) static B-pub"] ++
     ["object network C"; "nat (dmz,outside) static C-pub"]) =
  Ok ([] ++
      [nat_entry "B" ("inside", "outside", "B-pub")
         " nat (inside,outside) static B-pub"] ++
      [mkNat "C" "dmz" "outside" "static" "C-pub"
         "nat (dmz,outside) static C-pub"]).
Proof.
  destruct (nat_pairing_complete
              ["object network A"; "nat (inside,outside) dynamic interface"]
              ["object network C"; "nat (dmz,outside) static C-pub"]
              [" host 10.0.0.7"]
              "object network B" "B" " nat (inside,outside) static B-pub"
              ("inside", "outside", "B-pub"))
    as (es & es' & [= <-] & [= <-] & H);
    first [ reflexivity | discriminate | repeat constructor | exact H ].
Defined.

(** ** The interface parser, beyond the claims *)

Lemma parse_interfaces_out lines :
  parse_interfaces lines =
  match for_each interface_step ([], ∅) lines with
  | Ok st => Ok (interfaces_out st)
  | Raise e => Raise e
  end.
Proof.
  unfold parse_interfaces, interfaces_out.
  destruct (for_each _ _ lines) as [[ifs cur]|e]; reflexivity.
Qed.

(** A line that is neither a declaration nor the terminator, when the
    iteration returns: the collection is untouched and the current dict
    changes by assignments to field keys only. *)
Lemma interface_step_field_keeps (P : gmap string string -> Prop) ifs cur line st' :
  (forall k v m, k ∈ field_keys -> P m -> P (<[k:=v]> m)) ->
  is_header line = false -> is_terminator line = false ->
  interface_step (ifs, cur) line = Ok st' ->
  P cur -> st'.1 = ifs /\ P st'.2.
Proof.
  intros HP Hh Ht. unfold is_header, is_terminator in *. unfold interface_step.
  rewrite Hh, Ht.
  assert (forall k, k ∈ field_keys -> forall v m, P m -> P (<[k:=v]> m)) as HP'
    by eauto.
  pose proof (HP' "Name" ltac:(repeat constructor)) as Hname.
  pose proof (HP' "Security Level" ltac:(repeat constructor)) as Hsec.
  pose proof (HP' "IP Address" ltac:(repeat constructor)) as Hip.
  pose proof (HP' "Subnet Mask" ltac:(repeat constructor)) as Hmask.
  pose proof (HP' "Standby IP" ltac:(repeat constructor)) as Hsb.
  pose proof (HP' "VLAN" ltac:(repeat constructor)) as Hvlan.
  destruct (Py.startswith "nameif" _).
  { destruct (index _ 1); intros [= <-] ?; cbn; auto. }
  destruct (Py.startswith "security-level" _).
  { destruct (index _ 1); intros [= <-] ?; cbn; auto. }
  destruct (Py.startswith "ip address" _).
  { destruct (index _ 2); cbn [rbind]; [|discriminate].
    destruct (index _ 3); cbn [rbind]; [|discriminate].
    destruct (Py.contains "standby" _).
    - destruct (index_last _); intros [= <-] ?; cbn; auto.
    - intros [= <-] ?; cbn; auto. }
  destruct (Py.startswith "vlan" _).
  { destruct (index _ 1); intros [= <-] ?; cbn; auto. }
  intros [= <-] ?; cbn; auto.
Qed.

Lemma interface_step_ignorable ifs line :
  interface_ignorable line -> interface_step (ifs, ∅) line = Ok (ifs, ∅).
Proof.
  intros [Hh Hf]. unfold is_header, is_field_line in *. unfold interface_step.
  rewrite Hh in *. cbn [negb andb] in Hf.
  apply orb_false_iff in Hf as [[[-> ->]%orb_false_iff ->]%orb_false_iff ->].
  replace (dict_truthy ∅) with false by reflexivity.
  rewrite andb_false_r. reflexivity.
Qed.

Lemma interface_loop_ignorable ifs lines :
  Forall interface_ignorable lines ->
  for_each interface_step (ifs, ∅) lines = Ok (ifs, ∅).
Proof.
  induction 1 as [|l lines Hl _ IH]; [reflexivity|].
  rewrite for_each_cons, (interface_step_ignorable _ _ Hl). exact IH.
Qed.

Lemma field_key_column k : k ∈ field_keys -> k ∈ interface_columns.
Proof.
  unfold field_keys. intros Hk.
  repeat (apply elem_of_cons in Hk as [->|Hk];
          [apply (bool_decide_unpack _); vm_compute; exact I|]).
  apply elem_of_nil in Hk. contradiction.
Qed.

Lemma field_key_not_interface k : k ∈ field_keys -> k <> "Interface".
Proof.
  unfold field_keys. intros Hk.
  repeat (apply elem_of_cons in Hk as [->|Hk]; [discriminate|]).
  apply elem_of_nil in Hk. contradiction.
Qed.

Lemma dom_new_interface name : dom (new_interface name) = interface_columns.
Proof.
  unfold new_interface, interface_columns. rewrite !dom_insert_L, dom_empty_L.
  cbn [list_to_set]. apply set_eq. intros x.
  rewrite !elem_of_union, !elem_of_singleton. tauto.
Qed.

Lemma dom_field_insert k v (m : gmap string string) :
  k ∈ field_keys -> dom m = interface_columns -> dom (<[k:=v]> m) = interface_columns.
Proof.
  intros Hk Hm. rewrite dom_insert_L, Hm.
  apply subseteq_union_1_L, singleton_subseteq_l, field_key_column, Hk.
Qed.

Lemma lookup_field_insert k v (m : gmap string string) :
  k ∈ field_keys -> <[k:=v]> m !! "Interface" = m !! "Interface".
Proof.
  intros Hk. apply lookup_insert_ne, field_key_not_interface, Hk.
Qed.

(** The lines inside a block keep the identifier and the columns of the
    record in progress. *)
Lemma interface_loop_body_record (P : gmap string string -> Prop) ifs cur body :
  (forall k v m, k ∈ field_keys -> P m -> P (<[k:=v]> m)) ->
  forallb is_body body = true -> P cur ->
  exists cur', for_each interface_step (ifs, cur) body = Ok (ifs, cur') /\ P cur'.
Proof.
  intros HP. revert cur. induction body as [|l body IH]; intros cur Hb Hc.
  - exists cur. split; [reflexivity | exact Hc].
  - cbn [forallb] in Hb. apply andb_true_iff in Hb as [Hl Hb].
    unfold is_body in Hl.
    apply andb_true_iff in Hl as [[Hh Ht]%andb_true_iff Hs].
    apply negb_true_iff in Hh, Ht, Hs.
    destruct (interface_step_ok (ifs, cur) l Hs) as [st1 E].
    destruct (interface_step_field_keeps P ifs cur l st1 HP Hh Ht E Hc) as [E1 Hc1].
    destruct st1 as [ifs1 cur1]. cbn [fst snd] in *. subst ifs1.
    rewrite for_each_cons, E. apply IH; assumption.
Qed.

(** From any loop state, the lines of a block and what follows it add the
    record of the block to what the pass would return. *)
Lemma interface_loop_block st b :
  valid_block b.1 = true -> closing_ok b.2 ->
  exists st' d,
    for_each interface_step st (block_lines b) = Ok st' /\
    interfaces_out st' = interfaces_out st ++ [d] /\
    block_record b d.
Proof.
  destruct b as [[h body] closing], st as [ifs cur].
  unfold valid_block, block_lines, block_record. cbn [fst snd].
  intros [Hh Hb]%andb_true_iff Hc.
  destruct (interface_line_has_name h Hh) as [name Hn].
  assert (header_name h = Some name) as Hname.
  { unfold header_name. unfold index in Hn. destruct (_ !! 1); congruence. }
  assert (interface_step (ifs, cur) h =
          Ok (interfaces_out (ifs, cur), new_interface name)) as E.
  { unfold is_header in Hh. unfold interface_step. rewrite Hh, Hn. reflexivity. }
  set (P := fun d : gmap string string =>
              d !! "Interface" = Some name /\ dom d = interface_columns).
  assert (forall k v m, k ∈ field_keys -> P m -> P (<[k:=v]> m)) as HP.
  { intros k v m Hk [H1 H2]. split.
    - rewrite lookup_field_insert; assumption.
    - apply dom_field_insert; assumption. }
  assert (P (new_interface name)) as Hnew.
  { split; [reflexivity | apply dom_new_interface]. }
  destruct (interface_loop_body_record P (interfaces_out (ifs, cur))
              (new_interface name) body HP Hb Hnew) as (cur' & Eb & [Hi Hd]).
  assert (cur' <> ∅) as Hne.
  { intros ->. rewrite lookup_empty in Hi. discriminate. }
  rewrite for_each_cons, E, for_each_app, Eb, Hname.
  destruct closing as [|t junk].
  - exists (interfaces_out (ifs, cur), cur'), cur'.
    split; [reflexivity|]. split; [|split; assumption].
    unfold interfaces_out at 1. cbn [fst snd].
    rewrite (dict_truthy_true _ Hne). reflexivity.
  - destruct Hc as [Ht Hj].
    exists (interfaces_out (ifs, cur) ++ [cur'], ∅), cur'.
    rewrite for_each_cons, (interface_step_terminator _ _ _ Ht).
    rewrite (dict_truthy_true _ Hne), (interface_loop_ignorable _ _ Hj).
    split; [reflexivity|]. split; [reflexivity | split; assumption].
Qed.

Lemma interface_loop_block_list st blocks :
  Forall (fun b => valid_block b.1 = true /\ closing_ok b.2) blocks ->
  exists st' ds,
    for_each interface_step st (concat (map block_lines blocks)) = Ok st' /\
    interfaces_out st' = interfaces_out st ++ ds /\
    Forall2 block_record blocks ds.
Proof.
  intros H. revert st. induction H as [|b blocks [Hv Hc] _ IH]; intros st.
  - exists st, []. rewrite app_nil_r. repeat split. constructor.
  - destruct (interface_loop_block st b Hv Hc) as (st1 & d & E1 & Ho1 & Hd).
    destruct (IH st1) as (st' & ds & E & Ho & Hds).
    exists st', (d :: ds). cbn [map concat]. rewrite for_each_app, E1, E.
    split; [reflexivity|]. split; [|constructor; assumption].
    rewrite Ho, Ho1, <- app_assoc. reflexivity.
Qed.

(** X7. For an input made of lines without effect followed by valid
    blocks, each block followed by nothing (the next declaration closes
    it) or by the terminator and further lines without effect,
    [parse_interfaces] returns one record per declaration, in order: the
    record of a block has the identifier of its declaration line under
    [Interface] and exactly the seven columns. *)
Theorem interface_blocks_records (pre : list string)
    (blocks : list (string * list string * list string)) :
  Forall interface_ignorable pre ->
  Forall (fun b => valid_block b.1 = true /\ closing_ok b.2) blocks ->
  exists rs,
    parse_interfaces (pre ++ concat (map block_lines blocks)) = Ok rs /\
    Forall2 block_record blocks rs.
Proof.
  intros Hpre Hb. rewrite parse_interfaces_out, for_each_app.
  rewrite (interface_loop_ignorable _ _ Hpre).
  destruct (interface_loop_block_list ([], ∅) blocks Hb) as (st' & ds & E & Ho & Hds).
  rewrite E. exists ds. split; [|exact Hds]. rewrite Ho. reflexivity.
Qed.

Lemma interface_blocks_records_witness :
  exists rs,
    parse_interfaces
      (["!"; "hostname fw"] ++
       concat (map block_lines
         [ ("interface Gi0/0", [" nameif outside"; " ip address 198.51.100.1 255.255.255.0"], []);
           ("interface Gi0/1", [" shutdown"], ["!"; "!"; "dns domain-lookup inside"]);
           ("interface Gi0/2", [" vlan 30"], []) ])) = Ok rs /\
    length rs = 3.
Proof.
  destruct (interface_blocks_records ["!"; "hostname fw"]
    [ ("interface Gi0/0", [" nameif outside"; " ip address 198.51.100.1 255.255.255.0"], []);
      ("interface Gi0/1", [" shutdown"], ["!"; "!"; "dns domain-lookup inside"]);
      ("interface Gi0/2", [" vlan 30"], []) ]) as (rs & Hrs & H2).
  - repeat constructor.
  - repeat constructor.
  - exists rs. split; [exact Hrs|].
    apply Forall2_length in H2. symmetry. exact H2.
Defined.

(** X8. Whatever the input, when [parse_interfaces] returns, no record of
    its collection is empty and every record has its keys among the seven
    columns. *)
Theorem interface_records_nonempty (lines : list string)
    (rs : list (gmap string string)) :
  parse_interfaces lines = Ok rs ->
  Forall (fun r => r <> ∅ /\ dom r ⊆ interface_columns) rs.
Proof.
  rewrite parse_interfaces_out.
  destruct (for_each interface_step ([], ∅) lines) as [[ifs cur]|e] eqn:E;
    [|discriminate].
  intros [= <-].
  pose (good := fun r : gmap string string => r <> ∅ /\ dom r ⊆ interface_columns).
  pose (I := fun (_ : list string)
                 (st : list (gmap string string) * gmap string string) =>
               Forall good st.1 /\ dom st.2 ⊆ interface_columns).
  assert (I ([] ++ lines) (ifs, cur)) as [Hifs Hcur].
  { apply (for_each_prefix_inv interface_step I) with (st := ([], ∅));
      [| unfold I; cbn [fst snd];
         split; [constructor | rewrite dom_empty_L; apply empty_subseteq]
       | exact E].
    clear. intros done [ifs cur] l st' [Hifs Hcur] H. unfold I. cbn [fst snd] in *.
    assert (Forall good (if dict_truthy cur then ifs ++ [cur] else ifs)) as Happ.
    { unfold dict_truthy. destruct (bool_decide_reflect (cur <> ∅)); [|exact Hifs].
      apply Forall_app. split; [exact Hifs|]. constructor; [split; assumption|constructor]. }
    destruct (is_header l) eqn:Hh.
    { destruct (interface_step_header ifs cur l Hh) as [name E].
      rewrite E in H. injection H as <-. cbn [fst snd].
      split; [exact Happ|]. rewrite dom_new_interface. reflexivity. }
    destruct (is_terminator l) eqn:Ht.
    { rewrite (interface_step_terminator ifs cur l Ht) in H. injection H as <-.
      unfold dict_truthy in *. destruct (bool_decide (cur <> ∅)); cbn [fst snd].
      - split; [exact Happ|]. rewrite dom_empty_L. apply empty_subseteq.
      - split; assumption. }
    destruct (interface_step_field_keeps
                (fun d => dom d ⊆ interface_columns) ifs cur l st') as [-> Hd]; auto.
    intros k v m Hk Hm. rewrite dom_insert_L.
    apply union_least; [|exact Hm].
    apply singleton_subseteq_l, field_key_column, Hk. }
  unfold interfaces_out. cbn [fst snd] in *. unfold dict_truthy.
  destruct (bool_decide_reflect (cur <> ∅)); [|exact Hifs].
  apply Forall_app. split; [exact Hifs|]. constructor; [split; assumption|constructor].
Qed.

Lemma interface_records_nonempty_witness :
  Forall (fun r : gmap string string => r <> ∅ /\ dom r ⊆ interface_columns)
    [ {[ "VLAN" := "7" ]}; new_interface "Gi0/0" ].
Proof.
  apply (interface_records_nonempty ["vlan 7"; "!"; "!"; "interface Gi0/0"]).
  vm_compute. reflexivity.
Defined.

(** ** Lines without effect and surrounding whitespace *)

Lemma for_each_filter {S} (body : S -> string -> result S) (rel : string -> bool) :
  (forall st l, rel l = false -> body st l = Ok st) ->
  forall lines st,
    for_each body st (filter (fun l => rel l = true) lines) = for_each body st lines.
Proof.
  intros Hskip. induction lines as [|l lines IH]; intros st; [reflexivity|].
  rewrite filter_cons. destruct (rel l) eqn:Hl.
  - rewrite decide_True by reflexivity. rewrite !for_each_cons.
    destruct (body st l); [apply IH | reflexivity].
  - rewrite decide_False by discriminate.
    rewrite for_each_cons, (Hskip st l Hl). apply IH.
Qed.

Lemma interface_step_irrelevant st line :
  interface_relevant line = false -> interface_step st line = Ok st.
Proof.
  unfold interface_relevant. intros [[Hh Hf]%orb_false_iff Ht]%orb_false_iff.
  unfold is_header, is_field_line, is_terminator in *.
  destruct st as [ifs cur]. unfold interface_step.
  rewrite Hh in *. cbn [negb andb] in Hf.
  apply orb_false_iff in Hf as [[[-> ->]%orb_false_iff ->]%orb_false_iff ->].
  rewrite Ht. reflexivity.
Qed.

Lemma nat_step_irrelevant st line :
  nat_relevant line = false -> nat_step st line = Ok st.
Proof.
  unfold nat_relevant. intros [Ho Hn]%orb_false_iff.
  unfold is_object_decl, is_nat_line in *. destruct st as [es cur].
  unfold nat_step. rewrite Ho, Hn. reflexivity.
Qed.

(** X9. Lines of other kinds have no effect on the two stateful passes:
    [parse_interfaces] gives the same result on the input and on its
    declaration, field and terminator lines alone, and [parse_object_nat]
    gives the same result on the input and on its object declarations and
    [nat]-prefixed lines alone. *)
Theorem irrelevant_lines_skipped (lines : list string) :
  parse_interfaces (filter (fun l => interface_relevant l = true) lines) =
    parse_interfaces lines /\
  parse_object_nat (filter (fun l => nat_relevant l = true) lines) =
    parse_object_nat lines.
Proof.
  unfold parse_interfaces, parse_object_nat.
  rewrite (for_each_filter interface_step interface_relevant interface_step_irrelevant).
  rewrite (for_each_filter nat_step nat_relevant nat_step_irrelevant).
  split; reflexivity.
Qed.

Lemma rstrip_idem (s : string) : Py.rstrip (Py.rstrip s) = Py.rstrip s.
Proof.
  induction s as [|c s IH]; [reflexivity|]. cbn [Py.rstrip].
  destruct (Py.rstrip s) as [|c' r] eqn:E.
  - destruct (Py.isspace c) eqn:Ec; [reflexivity|]. cbn. rewrite Ec. reflexivity.
  - change (Py.rstrip (String c (String c' r)))
      with (match Py.rstrip (String c' r) with
            | "" => if Py.isspace c then "" else String c ""
            | r0 => String c r0
            end).
    rewrite IH. reflexivity.
Qed.

Lemma lstrip_stops (s : string) : stops Py.isspace (Py.lstrip s) = true.
Proof.
  induction s as [|c s IH]; [reflexivity|]. cbn [Py.lstrip].
  destruct (Py.isspace c) eqn:Ec; [exact IH|]. cbn. rewrite Ec. reflexivity.
Qed.

Lemma lstrip_rstrip (t : string) :
  stops Py.isspace t = true -> Py.lstrip (Py.rstrip t) = Py.rstrip t.
Proof.
  destruct t as [|c t]; [reflexivity|]. cbn [stops]. intros Hc%negb_true_iff.
  cbn [Py.rstrip]. destruct (Py.rstrip t); rewrite ?Hc; cbn; rewrite Hc; reflexivity.
Qed.

Lemma strip_idem (s : string) : Py.strip (Py.strip s) = Py.strip s.
Proof.
  unfold Py.strip. rewrite (lstrip_rstrip _ (lstrip_stops s)). apply rstrip_idem.
Qed.

Lemma for_each_map {S} (body : S -> string -> result S) (f : string -> string) :
  (forall st l, body st (f l) = body st l) ->
  forall lines st, for_each body st (map f lines) = for_each body st lines.
Proof.
  intros Hf. induction lines as [|l lines IH]; intros st; [reflexivity|].
  cbn [map]. rewrite !for_each_cons, Hf.
  destruct (body st l); [apply IH | reflexivity].
Qed.

Lemma foldl_map_ext {S} (body : S -> string -> S) (f : string -> string) :
  (forall st l, body st (f l) = body st l) ->
  forall lines st, foldl body st (map f lines) = foldl body st lines.
Proof.
  intros Hf. induction lines as [|l lines IH]; intros st; [reflexivity|].
  cbn [map foldl]. rewrite Hf. apply IH.
Qed.

(** X10. The interface, route and object NAT passes strip every line
    before they look at it: leading and trailing whitespace of the lines
    does not change their results. *)
Theorem surrounding_whitespace_ignored (lines : list string) :
  parse_interfaces (map Py.strip lines) = parse_interfaces lines /\
  parse_routes (map Py.strip lines) = parse_routes lines /\
  parse_object_nat (map Py.strip lines) = parse_object_nat lines.
Proof.
  unfold parse_interfaces, parse_routes, parse_object_nat.
  rewrite (for_each_map interface_step Py.strip),
          (foldl_map_ext route_step Py.strip),
          (for_each_map nat_step Py.strip); [auto| | |].
  - intros [es cur] l. unfold nat_step. rewrite strip_idem. reflexivity.
  - intros es l. unfold route_step. rewrite strip_idem. reflexivity.
  - intros [ifs cur] l. unfold interface_step. rewrite strip_idem. reflexivity.
Qed.

(** ** The ACL parser, beyond the claims *)

Lemma keeps_bind_tok {B} (P : AclRecord -> Prop) tokens i (f : string -> Acl B) :
  (forall a, tokens !! i = Some a -> keeps P (f a)) ->
  keeps P (abind (tok tokens i) f).
Proof.
  intros Hf r H. unfold abind, tok, index.
  destruct (tokens !! i) as [a|]; [apply (Hf a eq_refl r H) | exact H].
Qed.

Lemma keeps_if_eqn {A} (P : AclRecord -> Prop) (b : bool) (m1 m2 : Acl A) :
  (b = true -> keeps P m1) -> (b = false -> keeps P m2) ->
  keeps P (if b then m1 else m2).
Proof. destruct b; auto. Qed.

Lemma endpoint_kind_vocab t : mem t endpoint_kinds = true -> t ∈ acl_type_vocab.
Proof.
  intros H. apply bool_decide_eq_true in H. unfold endpoint_kinds in H.
  repeat (apply elem_of_cons in H as [->|H];
          [apply (bool_decide_unpack _); vm_compute; exact I|]).
  apply elem_of_nil in H. contradiction.
Qed.

Lemma keeps_types_assign k v :
  (k = K_source_type \/ k = K_destination_type -> v ∈ acl_type_vocab) ->
  keeps types_in_vocab (assign k v).
Proof.
  intros Hv [] [H1 H2]. unfold types_in_vocab in *.
  destruct k; cbn in *; split; auto.
Qed.

(** Closes an assignment: a type field gets [any] or the token that was
    just tested against the endpoint kinds. *)
Ltac types_leaf :=
  apply keeps_types_assign; intros [?|?]; try discriminate;
  first
    [ apply (bool_decide_unpack _); vm_compute; exact I
    | match goal with
      | Hm : mem ?t endpoint_kinds = true,
        H1 : ?tokens !! ?i = Some ?t,
        H2 : ?tokens !! ?i = Some ?v |- ?v ∈ _ =>
          replace v with t by congruence; apply endpoint_kind_vocab, Hm
      end ].

Lemma acl_body_types tokens : keeps types_in_vocab (acl_body tokens).
Proof.
  unfold acl_body, acl_clauses, port_clause.
  repeat first
    [ apply keeps_ret
    | apply keeps_bind_tok; intros ? ?
    | apply keeps_if_eqn; intros ?
    | apply keeps_bind; [|intros ?]
    | types_leaf ].
Qed.

Lemma types_acl_append_raw suffix r :
  types_in_vocab r -> types_in_vocab (acl_append_raw suffix r).
Proof. destruct r. auto. Qed.

(** What [parse_acl_line] returns when it returns a record. *)
Lemma parse_acl_line_record line r :
  parse_acl_line line = Ok (Some r) ->
  r = try_except (acl_body (Py.split (Py.strip line))) (acl_init (Py.strip line)).
Proof.
  unfold parse_acl_line. destruct (Py.split (Py.strip line)) as [|t0 ts].
  - discriminate.
  - cbn. destruct (negb _); [discriminate|]. congruence.
Qed.

(** X13. In every record that [parse_acl_line] returns, fault or not, the
    source type and the destination type are empty or one of [object],
    [object-group], [host] and [any]. *)
Theorem acl_types_vocabulary (line : string) (r : AclRecord) :
  parse_acl_line line = Ok (Some r) ->
  source_type r ∈ acl_type_vocab /\ destination_type r ∈ acl_type_vocab.
Proof.
  intros ->%parse_acl_line_record. unfold try_except.
  assert (types_in_vocab (acl_init (Py.strip line))) as H0.
  { split; apply (bool_decide_unpack _); vm_compute; exact I. }
  pose proof (acl_body_types (Py.split (Py.strip line)) _ H0) as H.
  destruct (acl_body _ _) as [r' [u|e]]; cbn [fst] in H; [exact H|].
  apply types_acl_append_raw, H.
Qed.

Lemma acl_types_vocabulary_witness :
  source_type
    (mkAcl "X" "permit" "tcp" "" "host" "" "" "" "" "" "" ""
       "access-list X advanced permit tcp host  # Parse error: list index out of range")
    ∈ acl_type_vocab.
Proof.
  apply (acl_types_vocabulary "access-list X advanced permit tcp host").
  vm_compute. reflexivity.
Defined.

Lemma on_success_bind {A B} (P Q : AclRecord -> Prop) (m : Acl A) (f : A -> Acl B) :
  keeps P m -> (forall a, on_success P (f a) Q) -> on_success P (abind m f) Q.
Proof.
  intros Hm Hf r r' b HP H. unfold abind in H. specialize (Hm r HP).
  destruct (m r) as [r1 [a|e]]; cbn [fst] in Hm; [|discriminate].
  exact (Hf a r1 r' b Hm H).
Qed.

Lemma keeps_rule_id_assign k v :
  k <> K_rule_id -> keeps (fun r => rule_id r = "") (assign k v).
Proof. intros Hk [] H. destruct k; try contradiction; exact H. Qed.

Lemma index_of_first t (l : list string) :
  mem t l = true ->
  l !! index_of t l = Some t /\
  forall j, j < index_of t l -> l !! j <> Some t.
Proof.
  unfold mem. intros H%bool_decide_eq_true.
  induction l as [|x l IH]; [inversion H|]. cbn [index_of].
  destruct (String.eqb_spec x t) as [->|Hne].
  - split; [reflexivity | intros j Hj; lia].
  - apply elem_of_cons in H as [->|H]; [contradiction|].
    destruct (IH H) as [H1 H2]. split; [exact H1|].
    intros [|j] Hj; cbn; [congruence | apply H2; lia].
Qed.

(** The last statement of the [try] block, from a dict without rule id. *)
Lemma rule_id_statement tokens :
  on_success (fun r => rule_id r = "")
    (if mem "rule-id" tokens
     then abind (tok tokens (index_of "rule-id" tokens + 1))
                (fun v => assign K_rule_id v)
     else aret tt)
    (fun r =>
       if mem "rule-id" tokens
       then tokens !! (index_of "rule-id" tokens + 1) = Some (rule_id r)
       else rule_id r = "").
Proof.
  intros r r' a HP. destruct (mem "rule-id" tokens).
  - unfold abind, tok, assign, index.
    destruct (tokens !! _) as [v|]; [|discriminate].
    intros [= <- _]. destruct r. reflexivity.
  - intros [= <- _]. exact HP.
Qed.

Lemma acl_body_rule_id tokens :
  on_success (fun r => rule_id r = "") (acl_body tokens)
    (fun r =>
       if mem "rule-id" tokens
       then tokens !! (index_of "rule-id" tokens + 1) = Some (rule_id r)
       else rule_id r = "").
Proof.
  unfold acl_body, acl_clauses, port_clause.
  repeat (apply on_success_bind;
          [ keeps_walk ltac:(apply keeps_rule_id_assign; discriminate)
          | intros ? ]).
  apply rule_id_statement.
Qed.

Lemma str_app_cancel (s t : string) : s +:+ t = s -> t = "".
Proof.
  induction s as [|c s IH]; [auto|].
  change (String c s +:+ t) with (String c (s +:+ t)). intros [= H]. auto.
Qed.

(** X14. When [parse_acl_line] returns a record without diagnostic (its
    [raw] field is the stripped line), the rule id is found by the scan of
    the whole token list: if some token is [rule-id], the field is the
    token that follows the first such token; if none is, the field is
    empty. *)
Theorem acl_rule_id_scan (line : string) (r : AclRecord) :
  parse_acl_line line = Ok (Some r) ->
  raw r = Py.strip line ->
  let tokens := Py.split (Py.strip line) in
  (forall i, tokens !! i <> Some "rule-id") /\ rule_id r = "" \/
  exists i,
    tokens !! i = Some "rule-id" /\
    (forall j, j < i -> tokens !! j <> Some "rule-id") /\
    tokens !! (i + 1) = Some (rule_id r).
Proof.
  intros ->%parse_acl_line_record Hraw tokens. unfold try_except in *.
  fold tokens in Hraw |- *.
  pose proof (acl_body_raw (Py.strip line) tokens (acl_init (Py.strip line)) eq_refl) as Hr.
  pose proof (acl_body_rule_id tokens (acl_init (Py.strip line))) as Hs.
  destruct (acl_body tokens _) as [r' [u|e]]; cbn [fst] in Hr.
  - specialize (Hs r' u eq_refl eq_refl). cbn beta in Hs.
    destruct (mem "rule-id" tokens) eqn:Hm.
    + right. destruct (index_of_first _ _ Hm) as [H1 H2].
      exists (index_of "rule-id" tokens). auto.
    + left. split; [|exact Hs]. intros i Hi.
      apply bool_decide_eq_false in Hm. apply Hm.
      apply list_elem_of_lookup. exists i. exact Hi.
  - rewrite raw_acl_append_raw, Hr in Hraw.
    apply str_app_cancel in Hraw. destruct e. discriminate.
Qed.

Lemma acl_rule_id_scan_witness :
  exists i,
    Py.split "access-list A advanced permit rule-id 7 any rule-id 9" !! i
      = Some "rule-id" /\
    Py.split "access-list A advanced permit rule-id 7 any rule-id 9" !! (i + 1)
      = Some "7".
Proof.
  destruct (acl_rule_id_scan
              " access-list A advanced permit rule-id 7 any rule-id 9"
              (mkAcl "A" "permit" "rule-id" "" "any" "7" "" "" "any" "any" "" "7"
                 "access-list A advanced permit rule-id 7 any rule-id 9"))
    as [[Hno _]|(i & Hi & _ & Hv)].
  - vm_compute. reflexivity.
  - reflexivity.
  - exfalso. apply (Hno 4). reflexivity.
  - exists i. split; [exact Hi | exact Hv].
Defined.

(** Records already collected do not influence the loop of [parse_acls]. *)
Lemma acls_step_acc acc line :
  acls_step acc line =
  match acls_step [] line with
  | Ok rs => Ok (acc ++ rs)
  | Raise e => Raise e
  end.
Proof.
  unfold acls_step. destruct (_ && _); [|rewrite app_nil_r; reflexivity].
  destruct (parse_acl_line line) as [[r|]|e]; cbn; rewrite ?app_nil_r; reflexivity.
Qed.

Lemma acls_loop_acc acc lines :
  for_each acls_step acc lines =
  match for_each acls_step [] lines with
  | Ok rs => Ok (acc ++ rs)
  | Raise e => Raise e
  end.
Proof.
  revert acc. induction lines as [|l lines IH]; intros acc.
  - cbn. rewrite app_nil_r. reflexivity.
  - rewrite !for_each_cons, (acls_step_acc acc l).
    destruct (acls_step [] l) as [rs1|e]; [|reflexivity].
    rewrite (IH (acc ++ rs1)), (IH rs1).
    destruct (for_each acls_step [] lines); [rewrite app_assoc|]; reflexivity.
Qed.

(** X11. The ACL pass works line by line: the records of a concatenation
    are the records of the first part followed by the records of the
    second, in the order of the lines. *)
Theorem parse_acls_app (lines1 lines2 : list string) :
  exists rs1 rs2,
    parse_acls lines1 = Ok rs1 /\
    parse_acls lines2 = Ok rs2 /\
    parse_acls (lines1 ++ lines2) = Ok (rs1 ++ rs2).
Proof.
  unfold parse_acls.
  destruct (for_each_total acls_step acls_step_ok lines1 []) as [rs1 E1].
  destruct (for_each_total acls_step acls_step_ok lines2 []) as [rs2 E2].
  exists rs1, rs2. do 2 (split; [assumption|]).
  rewrite for_each_app, E1, acls_loop_acc, E2. reflexivity.
Qed.

Lemma parse_acl_line_some line :
  match parse_acl_line line with
  | Ok (Some _) => head (Py.split (Py.strip line)) = Some "access-list"
  | Ok None => head (Py.split (Py.strip line)) <> Some "access-list"
  | Raise _ => False
  end.
Proof.
  unfold parse_acl_line. destruct (Py.split (Py.strip line)) as [|t0 ts]; cbn.
  - discriminate.
  - destruct (String.eqb_spec t0 "access-list") as [->|Hne]; cbn; congruence.
Qed.

(** X12. [parse_acls] returns one record for each line that begins with
    [access-list], contains [advanced] and has [access-list] as its first
    token, in the order of the lines, and nothing for any other line; the
    record of such a line is the one [parse_acl_line] returns for it. *)
Theorem parse_acls_per_line (lines : list string) :
  exists rs,
    parse_acls lines = Ok rs /\
    Forall2 (fun l r => parse_acl_line l = Ok (Some r))
      (filter (fun l => acl_qualifies l = true) lines) rs.
Proof.
  unfold parse_acls. induction lines as [|l lines (rs & E & H)].
  - exists []. split; [reflexivity | constructor].
  - rewrite for_each_cons, filter_cons.
    pose proof (parse_acl_line_some l) as Hl.
    destruct (acl_qualifies l) eqn:Hq.
    + rewrite decide_True by reflexivity. unfold acl_qualifies in Hq.
      apply andb_true_iff in Hq as [Hf Hh%bool_decide_eq_true].
      unfold acls_step at 1. rewrite Hf.
      destruct (parse_acl_line l) as [[r|]|e] eqn:El; [|contradiction..]; cbn.
      rewrite acls_loop_acc, E. exists (r :: rs). split; [reflexivity|].
      constructor; assumption.
    + rewrite decide_False by discriminate. exists rs. split; [|exact H].
      unfold acl_qualifies in Hq. unfold acls_step at 1.
      destruct (Py.startswith "access-list" l && Py.contains "advanced" l);
        [|exact E].
      cbn [andb] in Hq. apply bool_decide_eq_false in Hq.
      destruct (parse_acl_line l) as [[r|]|e]; [contradiction| |contradiction].
      exact E.
Qed.

Lemma keeps_ports_assign tokens k v :
  (k = K_source_port \/ k = K_destination_port -> port_ok tokens v) ->
  keeps (ports_ok tokens) (assign k v).
Proof.
  intros Hv [] [H1 H2]. unfold ports_ok in *.
  destruct k; cbn in *; split; auto.
Qed.

(** Closes an assignment: a port field gets its value in one of the two
    branches under the test of the operator at the cursor. *)
Ltac ports_leaf :=
  apply keeps_ports_assign; intros [?|?]; try discriminate;
  match goal with
  | Hm : mem ?t port_ops = true,
    H1 : ?tokens !! ?i = Some ?t,
    H2 : ?tokens !! ?i = Some ?t',
    Hr : (?t' =? "range") = _ |- port_ok _ _ =>
      right; exists i, t'; split; [exact H2|];
      split; [replace t' with t by congruence;
              apply bool_decide_eq_true in Hm; exact Hm|];
      first
        [ apply String.eqb_eq in Hr; left; split; [exact Hr|]; eauto 10
        | apply String.eqb_neq in Hr; right; split; [exact Hr | assumption] ]
  end.

Lemma acl_body_ports tokens : keeps (ports_ok tokens) (acl_body tokens).
Proof.
  unfold acl_body, acl_clauses, port_clause.
  repeat first
    [ apply keeps_ret
    | apply keeps_bind_tok; intros ? ?
    | apply keeps_if_eqn; intros ?
    | apply keeps_bind; [|intros ?]
    | ports_leaf ].
Qed.

Lemma ports_acl_append_raw tokens suffix r :
  ports_ok tokens r -> ports_ok tokens (acl_append_raw suffix r).
Proof. destruct r. auto. Qed.

(** X15. In every record that [parse_acl_line] returns, fault or not,
    each of the two port fields is empty, or the token that follows a
    token [eq], [gt], [lt] or [neq], or the two tokens that follow a token
    [range] joined by a dash. *)
Theorem acl_ports_from_tokens (line : string) (r : AclRecord) :
  parse_acl_line line = Ok (Some r) ->
  port_ok (Py.split (Py.strip line)) (source_port r) /\
  port_ok (Py.split (Py.strip line)) (destination_port r).
Proof.
  intros ->%parse_acl_line_record. unfold try_except.
  assert (ports_ok (Py.split (Py.strip line)) (acl_init (Py.strip line))) as H0.
  { split; left; reflexivity. }
  pose proof (acl_body_ports (Py.split (Py.strip line)) _ H0) as H.
  destruct (acl_body _ _) as [r' [u|e]]; cbn [fst] in H; [exact H|].
  apply ports_acl_append_raw, H.
Qed.

Lemma acl_ports_from_tokens_witness :
  port_ok
    (Py.split "access-list X advanced permit tcp any range 1000 2000 host 10.0.0.1 eq")
    "1000-2000".
Proof.
  apply (acl_ports_from_tokens
           "access-list X advanced permit tcp any range 1000 2000 host 10.0.0.1 eq"
           (mkAcl "X" "permit" "tcp" "" "any" "any" "1000-2000" "" "host"
              "10.0.0.1" "" ""
              "access-list X advanced permit tcp any range 1000 2000 host 10.0.0.1 eq  # Parse error: list index out of range")).
  vm_compute. reflexivity.
Defined.

(** X16. [parse_acl_line] strips its line, so surrounding whitespace does
    not change its result; the filter of [parse_acls] tests the line as
    it is, so a line that begins with a whitespace character is never
    handed to [parse_acl_line] and yields no record. *)
Theorem acl_filter_on_raw_line :
  (forall line, parse_acl_line (Py.strip line) = parse_acl_line line) /\
  (forall c rest lines,
     Py.isspace c = true ->
     parse_acls (String c rest :: lines) = parse_acls lines).
Proof.
  split.
  - intros line. unfold parse_acl_line. rewrite strip_idem. reflexivity.
  - intros c rest lines Hc. unfold parse_acls. rewrite for_each_cons.
    unfold acls_step at 1. rewrite (startswith_cons "a"%char).
    destruct (Ascii.eqb_spec "a" c) as [<-|]; [discriminate | reflexivity].
Qed.

Lemma acl_filter_on_raw_line_witness :
  parse_acls [" access-list X advanced permit ip any any"] = parse_acls [].
Proof.
  apply (proj2 acl_filter_on_raw_line). reflexivity.
Defined.

(** ** Identifiers of declaration lines *)

Lemma startswith_all_in C p s :
  Py.startswith p s = true -> all_in C s = true -> all_in C p = true.
Proof.
  revert s. induction p as [|a p IH]; intros s H Hs; [reflexivity|].
  destruct s as [|b s]; [discriminate|]. rewrite startswith_cons in H.
  destruct (Ascii.eqb_spec a b) as [->|]; [|discriminate].
  cbn in *. apply andb_true_iff in Hs as [-> Hs]. exact (IH s H Hs).
Qed.

(** A pattern with a whitespace character does not occur in a word. *)
Lemma word_contains p s :
  all_in Py.nonspace p = false -> all_in Py.nonspace s = true ->
  Py.contains p s = false.
Proof.
  intros Hp. induction s as [|c s IH]; intros Hs.
  - cbn. destruct p; [discriminate | reflexivity].
  - cbn [Py.contains]. apply orb_false_iff. split.
    + destruct (Py.startswith p (String c s)) eqn:E; [|reflexivity].
      rewrite (startswith_all_in _ _ _ E Hs) in Hp. discriminate.
    + cbn in Hs. apply andb_true_iff in Hs as [_ Hs]. exact (IH Hs).
Qed.

Lemma split_sep_go_absent sep cur s :
  Py.contains sep s = false -> Py.split_sep_go sep cur 0 s = [cur +:+ s].
Proof.
  revert cur. induction s as [|c s IH]; intros cur H.
  - cbn. rewrite str_app_nil_r. reflexivity.
  - cbn [Py.contains] in H. apply orb_false_iff in H as [H1 H2].
    cbn [Py.split_sep_go]. rewrite H1, (IH _ H2), str_app_snoc. reflexivity.
Qed.

Lemma lstrip_word s : all_in Py.nonspace s = true -> Py.lstrip s = s.
Proof.
  destruct s as [|c s]; [reflexivity|]. cbn. unfold Py.nonspace.
  destruct (Py.isspace c); [discriminate | reflexivity].
Qed.

Lemma rstrip_word s : all_in Py.nonspace s = true -> Py.rstrip s = s.
Proof.
  induction s as [|c s IH]; [reflexivity|]. cbn. unfold Py.nonspace at 1.
  intros [Hc Hs]%andb_true_iff. rewrite (IH Hs).
  destruct s; [|reflexivity]. destruct (Py.isspace c); [discriminate | reflexivity].
Qed.

Lemma split_go_word cur s :
  all_in Py.nonspace s = true -> Py.split_go cur s = Py.flush (cur +:+ s).
Proof.
  revert cur. induction s as [|c s IH]; intros cur Hs.
  - cbn. rewrite str_app_nil_r. reflexivity.
  - cbn in Hs. apply andb_true_iff in Hs as [Hc Hs]. unfold Py.nonspace in Hc.
    cbn [Py.split_go]. destruct (Py.isspace c); [discriminate|].
    rewrite (IH _ Hs), str_app_snoc. reflexivity.
Qed.

(** X17. The identifier of a declaration line is read back as written: a
    line whose stripped text is [interface], a space and a word is an
    interface declaration and gives its record that word as identifier; a
    line whose stripped text is [object network], a space and a word is an
    object declaration and sets the pending name to that word. *)
Theorem declared_identifiers (name : string) :
  is_word name ->
  (forall line,
     Py.strip line = "interface " +:+ name ->
     is_header line = true /\ header_name line = Some name) /\
  (forall line,
     Py.strip line = "object network " +:+ name ->
     is_object_decl line = true /\ declared_name line = Ok name).
Proof.
  intros [Hne Hw]. split; intros line Hs.
  - unfold is_header, header_name. rewrite Hs. split; [reflexivity|].
    rewrite split_interface_prefix. unfold Py.split.
    rewrite (split_go_word "" name Hw). change ("" +:+ name) with name.
    destruct name; [contradiction | reflexivity].
  - unfold is_object_decl, declared_name. rewrite Hs. split; [reflexivity|].
    assert (Py.split_sep "object network" ("object network " +:+ name) =
            [""; " " +:+ name]) as ->.
    { change (Py.split_sep "object network" ("object network " +:+ name))
        with ("" :: Py.split_sep_go "object network" "" 0 (String " " name)).
      rewrite split_sep_go_absent; [reflexivity|].
      cbn [Py.contains]. apply orb_false_iff. split; [reflexivity|].
      apply word_contains; [reflexivity | exact Hw]. }
    cbn [index lookup list_lookup rbind]. unfold Py.strip.
    change (Py.lstrip (" " +:+ name)) with (Py.lstrip name).
    rewrite (lstrip_word _ Hw), (rstrip_word _ Hw). reflexivity.
Qed.

Lemma declared_identifiers_witness :
  header_name "  interface Port-channel1.20 " = Some "Port-channel1.20" /\
  declared_name " object network WEB_SRV-01" = Ok "WEB_SRV-01".
Proof.
  split.
  - apply (proj1 (declared_identifiers "Port-channel1.20"
                    ltac:(split; [discriminate | reflexivity]))).
    reflexivity.
  - apply (proj2 (declared_identifiers "WEB_SRV-01"
                    ltac:(split; [discriminate | reflexivity]))).
    reflexivity.
Defined.

(** ** Fields the line has nothing for *)

Lemma acl_get_set_ne k k' v r : k <> k' -> acl_get k' (acl_set k v r) = acl_get k' r.
Proof. intros H. destruct r, k, k'; try reflexivity; contradiction. Qed.

Lemma acl_get_append_raw k suffix r :
  acl_get k (acl_append_raw suffix r) = acl_get k r.
Proof. destruct r, k; reflexivity. Qed.

Lemma empty_on_init K stripped : empty_on K (acl_init stripped).
Proof. intros k _. destruct k; reflexivity. Qed.

Lemma keeps_empty_on_assign K k v :
  K k = false -> keeps (empty_on K) (assign k v).
Proof.
  intros Hk r H k' Hk'. cbn. rewrite acl_get_set_ne; [apply H, Hk' | congruence].
Qed.

Lemma bounded_ret P n i : n <= i -> bounded P n (aret i).
Proof. intros Hn r H. split; [exact H | intros j [= <-]; exact Hn]. Qed.

Lemma bounded_bind_tok P n tokens j (f : string -> Acl nat) :
  (forall a, tokens !! j = Some a -> bounded P n (f a)) ->
  bounded P n (abind (tok tokens j) f).
Proof.
  intros Hf r H. unfold abind, tok, index.
  destruct (tokens !! j) as [a|]; [apply (Hf a eq_refl r H)|].
  split; [exact H | discriminate].
Qed.

Lemma bounded_bind {A} P n (m : Acl A) (f : A -> Acl nat) :
  keeps P m -> (forall a, bounded P n (f a)) -> bounded P n (abind m f).
Proof.
  intros Hm Hf r H. unfold abind. specialize (Hm r H).
  destruct (m r) as [r1 [a|e]]; cbn [fst] in Hm; [apply (Hf a r1 Hm)|].
  split; [exact Hm | discriminate].
Qed.

Lemma bounded_if_eqn P n (b : bool) (m1 m2 : Acl nat) :
  (b = true -> bounded P n m1) -> (b = false -> bounded P n m2) ->
  bounded P n (if b then m1 else m2).
Proof. destruct b; auto. Qed.

Lemma keeps_bind_bounded {B} P n (m : Acl nat) (f : nat -> Acl B) :
  bounded P n m -> (forall i, n <= i -> keeps P (f i)) -> keeps P (abind m f).
Proof.
  intros Hm Hf r H. unfold abind. destruct (Hm r H) as [H1 H2].
  destruct (m r) as [r1 [i|e]]; cbn [fst snd] in *; [|exact H1].
  apply (Hf i (H2 i eq_refl) r1 H1).
Qed.

(** Walks a statement for an invariant of the form [empty_on K]; [absurd]
    closes the branches that the tokens rule out. *)
Ltac empty_leaf := apply keeps_empty_on_assign; reflexivity.

Ltac bounded_walk absurd :=
  repeat first
    [ apply bounded_ret; lia
    | apply bounded_bind_tok; intros ? ?; try (exfalso; absurd)
    | apply bounded_if_eqn; intros ?; try (exfalso; absurd)
    | apply bounded_bind; [empty_leaf | intros ?] ].

Ltac empty_walk absurd :=
  repeat first
    [ apply keeps_ret
    | apply keeps_bind_tok; intros ? ?; try (exfalso; absurd)
    | apply keeps_if_eqn; intros ?; try (exfalso; absurd)
    | apply (keeps_bind_bounded _ 6); [solve [bounded_walk absurd] | intros ? ?]
    | apply (keeps_bind_bounded _ 5); [solve [bounded_walk absurd] | intros ? ?]
    | apply keeps_bind; [|intros ?]
    | empty_leaf ].

Lemma acl_body_no_clause tokens :
  length tokens <= 5 -> keeps (empty_on clause_key) (acl_body tokens).
Proof.
  intros Hlen. unfold acl_body, acl_clauses, port_clause.
  empty_walk ltac:(idtac; match goal with
                   | H : tokens !! ?i = Some _ |- _ =>
                       apply lookup_lt_Some in H; lia
                   end).
Qed.

Lemma acl_body_no_destination tokens :
  length tokens <= 6 -> keeps (empty_on destination_key) (acl_body tokens).
Proof.
  intros Hlen. unfold acl_body, acl_clauses, port_clause.
  empty_walk ltac:(idtac; match goal with
                   | H : bool_decide (?i < length tokens) = true |- _ =>
                       apply bool_decide_eq_true in H; lia
                   end).
Qed.

Lemma acl_body_no_zone tokens :
  "ifc" ∉ tokens -> keeps (empty_on zone_key) (acl_body tokens).
Proof.
  intros Hno. unfold acl_body, acl_clauses, port_clause.
  empty_walk ltac:(idtac; match goal with
                   | Hr : (?t =? "ifc") = true, H : tokens !! _ = Some ?t |- _ =>
                       apply String.eqb_eq in Hr; subst t;
                       apply Hno, list_elem_of_lookup; eauto
                   end).
Qed.

Lemma acl_body_no_port tokens :
  (forall op, op ∈ port_ops -> op ∉ tokens) ->
  keeps (empty_on port_key) (acl_body tokens).
Proof.
  intros Hno. unfold acl_body, acl_clauses, port_clause.
  empty_walk ltac:(idtac; match goal with
                   | Hm : mem ?t port_ops = true, H : tokens !! _ = Some ?t |- _ =>
                       apply bool_decide_eq_true in Hm;
                       apply (Hno t Hm), list_elem_of_lookup; eauto
                   end).
Qed.

Lemma acl_body_no_rule_id tokens :
  "rule-id" ∉ tokens -> keeps (empty_on rule_key) (acl_body tokens).
Proof.
  intros Hno. unfold acl_body, acl_clauses, port_clause.
  empty_walk ltac:(idtac; match goal with
                   | Hm : mem "rule-id" tokens = true |- _ =>
                       apply bool_decide_eq_true in Hm; exact (Hno Hm)
                   end).
Qed.

Lemma try_except_positional tokens stripped :
  let r := try_except (acl_body tokens) (acl_init stripped) in
  acl_name r = default "" (tokens !! 1) /\
  action r = default "" (tokens !! 3) /\
  protocol r = default "" (tokens !! 4).
Proof.
  destruct tokens as [|t0 [|t1 [|t2 [|t3 [|t4 ts]]]]]; try (repeat split; fail).
  intros r. subst r. unfold try_except.
  assert (frame t1 t3 t4 stripped
            (acl_body (t0 :: t1 :: t2 :: t3 :: t4 :: ts) (acl_init stripped)).1) as Hfr.
  { rewrite acl_body_required. apply acl_clauses_frame. repeat split. }
  destruct (acl_body _ _) as [st [u|e]]; cbn [fst] in Hfr.
  - destruct Hfr as (? & ? & ? & _). auto.
  - apply (frame_acl_append_raw _ _ _ _ (parse_error_suffix e)) in Hfr.
    destruct Hfr as (? & ? & ? & _). auto.
Qed.

Lemma try_except_empty_on K tokens stripped :
  keeps (empty_on K) (acl_body tokens) ->
  empty_on K (try_except (acl_body tokens) (acl_init stripped)).
Proof.
  intros Hk. unfold try_except.
  pose proof (Hk _ (empty_on_init K stripped)) as H.
  destruct (acl_body _ _) as [st [u|e]]; cbn [fst] in H; [exact H|].
  intros k Hkey. rewrite acl_get_append_raw. apply H, Hkey.
Qed.

Lemma try_except_absent_fields tokens stripped :
  absent_fields_empty tokens (try_except (acl_body tokens) (acl_init stripped)).
Proof.
  destruct (try_except_positional tokens stripped) as (Hn & Ha & Hp).
  unfold absent_fields_empty. do 3 (split; [assumption|]).
  split; [intros H; apply try_except_empty_on, acl_body_no_clause, H|].
  split; [intros H; apply try_except_empty_on, acl_body_no_destination, H|].
  split; [intros H; apply try_except_empty_on, acl_body_no_zone, H|].
  split; [intros H; apply try_except_empty_on, acl_body_no_port, H|].
  intros H; apply try_except_empty_on, acl_body_no_rule_id, H.
Qed.

(** C10. For every input string [parse_acl_line] returns without raising;
    it returns [None] exactly when the stripped line is empty or its first
    whitespace-delimited token is not [access-list]; otherwise it returns a
    record, all thirteen fields of which are fields of [AclRecord], whose
    [raw] field begins with the stripped line and whose other fields are
    empty strings wherever the line has nothing for them. *)
Theorem parse_acl_line_total (line : string) :
  exists o, parse_acl_line line = Ok o /\
    (o = None <->
       Py.strip line = "" \/
       head (Py.split (Py.strip line)) <> Some "access-list") /\
    (forall r, o = Some r -> Py.startswith (Py.strip line) (raw r) = true) /\
    (forall r, o = Some r ->
       absent_fields_empty (Py.split (Py.strip line)) r).
Proof.
  unfold parse_acl_line.
  destruct (Py.split (Py.strip line)) as [|t0 ts] eqn:Et.
  - exists None. split; [reflexivity|]. split; [|split; discriminate].
    split; [|reflexivity]. intros _. left. apply split_strip_nil, Et.
  - simpl. destruct (String.eqb_spec t0 "access-list") as [->|Hne]; simpl.
    + eexists. split; [reflexivity|]. split; [|split].
      * split; [discriminate|]. intros [Hs|Hh]; [|congruence].
        apply split_strip_nil in Hs. congruence.
      * intros r [= <-]. unfold try_except.
        pose proof (acl_body_raw (Py.strip line) ("access-list" :: ts)
                      (acl_init (Py.strip line)) eq_refl) as Hraw.
        destruct (acl_body _ _) as [r' [u|e]]; simpl in Hraw.
        -- rewrite Hraw. apply startswith_refl.
        -- rewrite raw_acl_append_raw, Hraw. apply startswith_app_l.
      * intros r [= <-]. apply try_except_absent_fields.
    + exists None. split; [reflexivity|]. split; [|split; discriminate].
      split; [|reflexivity]. intros _. right. congruence.
Qed.

(** ** A field line read when no record is in progress *)

Lemma interface_loop_irrelevant st lines :
  Forall (fun l => interface_relevant l = false) lines ->
  for_each interface_step st lines = Ok st.
Proof.
  induction 1 as [|l lines Hl _ IH]; [reflexivity|].
  rewrite for_each_cons, (interface_step_irrelevant st l Hl). exact IH.
Qed.

(** C5 (as the code has it). A [nameif] line with a second token [v] that
    is read when no record is in progress is not ignored: it stores [v]
    under [Name] in the empty current dict, which from then on counts as a
    record in progress; read alone, the line gives a collection of one
    record that has the [Name] field only. After further lines of the
    inside of a block, the dict in progress is still not empty and still
    has no [Interface] key (it is the [Name]-only dict when those lines
    are of other kinds), and it is appended to the collection as a record
    by the next terminator, by the next interface declaration, and at the
    end of the input. *)
Theorem nameif_without_record (line v : string) :
  Py.startswith "nameif" (Py.strip line) = true ->
  Py.split (Py.strip line) !! 1 = Some v ->
  (forall ifs, interface_step (ifs, ∅) line = Ok (ifs, {[ "Name" := v ]})) /\
  dict_truthy {[ "Name" := v ]} = true /\
  parse_interfaces [line] = Ok [ {[ "Name" := v ]} ] /\
  (forall ifs mid,
     forallb is_body mid = true ->
     exists cur,
       for_each interface_step (ifs, ∅) (line :: mid) = Ok (ifs, cur) /\
       cur <> ∅ /\ cur !! "Interface" = None /\
       (Forall (fun l => interface_relevant l = false) mid ->
        cur = {[ "Name" := v ]}) /\
       interfaces_out (ifs, cur) = ifs ++ [cur] /\
       (ifs = [] -> parse_interfaces (line :: mid) = Ok [cur]) /\
       (forall t,
          is_terminator t = true ->
          for_each interface_step (ifs, ∅) (line :: mid ++ [t]) =
            Ok (ifs ++ [cur], ∅)) /\
       (forall h,
          is_header h = true ->
          exists name,
            header_name h = Some name /\
            for_each interface_step (ifs, ∅) (line :: mid ++ [h]) =
              Ok (ifs ++ [cur], new_interface name))).
Proof.
  intros Hn Hv. pose proof (nameif_not_header _ Hn) as Hh. unfold is_header in Hh.
  assert (forall ifs, interface_step (ifs, ∅) line = Ok (ifs, {[ "Name" := v ]})) as Hstep.
  { intros ifs. unfold interface_step, index. rewrite Hh, Hn, Hv. cbn [rbind].
    rewrite insert_empty. reflexivity. }
  assert (dict_truthy ({[ "Name" := v ]} : gmap string string) = true) as Ht.
  { apply dict_truthy_true, map_non_empty_singleton. }
  split; [exact Hstep|]. split; [exact Ht|]. split.
  { unfold parse_interfaces. rewrite for_each_cons, Hstep. cbn [for_each rbind].
    rewrite Ht. reflexivity. }
  intros ifs mid Hmid.
  set (P := fun d : gmap string string => d <> ∅ /\ d !! "Interface" = None).
  assert (forall k x m, k ∈ field_keys -> P m -> P (<[k:=x]> m)) as HP.
  { intros k x m Hk [_ H2]. split; [apply insert_non_empty|].
    rewrite lookup_field_insert; assumption. }
  assert (P {[ "Name" := v ]}) as H0.
  { split; [apply map_non_empty_singleton|].
    apply lookup_singleton_ne. discriminate. }
  destruct (interface_loop_body_record P ifs {[ "Name" := v ]} mid HP Hmid H0)
    as (cur & Eb & Hne & Hi).
  assert (for_each interface_step (ifs, ∅) (line :: mid) = Ok (ifs, cur)) as E.
  { rewrite for_each_cons, Hstep. exact Eb. }
  exists cur. split; [exact E|]. split; [exact Hne|]. split; [exact Hi|].
  split.
  { intros Hirr. rewrite (interface_loop_irrelevant _ _ Hirr) in Eb.
    injection Eb as <-. reflexivity. }
  split.
  { unfold interfaces_out. cbn [fst snd]. rewrite (dict_truthy_true _ Hne).
    reflexivity. }
  split.
  { intros ->. rewrite parse_interfaces_out, E. unfold interfaces_out.
    cbn [fst snd]. rewrite (dict_truthy_true _ Hne). reflexivity. }
  split.
  - intros t Hterm.
    change (line :: mid ++ [t]) with ((line :: mid) ++ [t]).
    rewrite for_each_app, E, for_each_cons.
    rewrite (interface_step_terminator _ _ _ Hterm), (dict_truthy_true _ Hne).
    reflexivity.
  - intros h Hhead. destruct (interface_line_has_name h Hhead) as [name Hname].
    exists name. split.
    { unfold header_name. unfold index in Hname.
      destruct (Py.split (Py.strip h) !! 1); congruence. }
    change (line :: mid ++ [h]) with ((line :: mid) ++ [h]).
    rewrite for_each_app, E, for_each_cons.
    unfold is_header in Hhead. unfold interface_step.
    rewrite Hhead, Hname, (dict_truthy_true _ Hne). reflexivity.
Qed.

Lemma nameif_without_record_witness :
  parse_interfaces [" nameif inside"] = Ok [ {[ "Name" := "inside" ]} ] /\
  for_each interface_step ([], ∅) [" nameif inside"; "hostname fw"; "!"] =
    Ok ([ {[ "Name" := "inside" ]} ], ∅) /\
  for_each interface_step ([], ∅) [" nameif inside"; "hostname fw"; "interface Gi0/1"] =
    Ok ([ {[ "Name" := "inside" ]} ], new_interface "Gi0/1").
Proof.
  destruct (nameif_without_record " nameif inside" "inside" eq_refl eq_refl)
    as (_ & _ & Hone & Hmid).
  split; [exact Hone|].
  destruct (Hmid [] ["hostname fw"] eq_refl)
    as (cur & _ & _ & _ & Hcur & _ & _ & Hterm & Hhead).
  rewrite (Hcur ltac:(repeat constructor)) in Hterm, Hhead.
  split.
  - exact (Hterm "!" eq_refl).
  - destruct (Hhead "interface Gi0/1" eq_refl) as (name & [= <-] & E). exact E.
Defined.
